(** * obs-midi-mg: the device core (src/mmg-device.cpp)

    A shallow embedding of [MMGDevice] and [MMGDeviceManager] and the
    properties of their activation, probing, registration and cascade
    logic.

    The C++ methods run against three kinds of state:
    - the fields of one device object ([_active], [_thru], and the fields of
      its base class),
    - the MIDI port pair that the base class drives, which is an external
      collaborator and is kept abstract (class [MMGMIDIPort]),
    - the configuration tree reached through the global [config()]:
      collections, their bindings, the messages of each binding.

    Every call that leaves the file (port operations, logging, prompting,
    [refresh], [setDevice], ...) is recorded in a trace of [Event]s, so that
    both the resulting state and the order of the calls can be stated. *)

From Stdlib Require Import ZArith Bool List Lia.
From stdpp Require Import base gmap strings list.

Import ListNotations.
Local Open Scope string_scope.
Local Open Scope list_scope.
Local Open Scope Z_scope.

(** ** Values of the Qt JSON layer *)

(** A [QJsonValue]. Numbers are doubles in Qt; the only thing this file does
    with a number is [toInt], which distinguishes whole values from the rest,
    so a number is either [JNumber n] (the whole value [n]) or [JFraction]
    (any value that is not whole). Arrays and nested objects are [JOther]. *)
Inductive QJsonValue : Type :=
| JUndefined
| JNull
| JBool (b : bool)
| JNumber (n : Z)
| JFraction
| JString (s : string)
| JOther.

(** A [QJsonObject]: a finite map from keys to values. *)
Abbreviation QJsonObject := (gmap string QJsonValue).

(** [json_obj["key"]] on a const object: the value, or undefined. *)
Definition at_key (json_obj : QJsonObject) (key : string) : QJsonValue :=
  match json_obj !! key with
  | Some v => v
  | None => JUndefined
  end.

Definition INT_MIN : Z := - 2 ^ 31.
Definition INT_MAX : Z := 2 ^ 31 - 1.

(** [QJsonValue::toInt()]: the value if it is a whole number that fits an
    [int], and the default 0 otherwise. *)
Definition toInt (v : QJsonValue) : Z :=
  match v with
  | JNumber n => if (INT_MIN <=? n) && (n <=? INT_MAX) then n else 0
  | _ => 0
  end.

(** [QJsonValue::toString()]: the string, or the empty default. *)
Definition toString (v : QJsonValue) : string :=
  match v with
  | JString s => s
  | _ => EmptyString
  end.

(** Conversion [int -> uint] (wrap-around modulo 2^32). *)
Definition to_uint (n : Z) : Z := n mod 2 ^ 32.

(** Conversion [(int)] of a [uint]. *)
Definition to_int (u : Z) : Z :=
  if u mod 2 ^ 32 <? 2 ^ 31 then u mod 2 ^ 32 else u mod 2 ^ 32 - 2 ^ 32.

(** Conversion [uint -> bool]. *)
Definition to_bool (u : Z) : bool := negb (u =? 0).

(** [QString::isEmpty]. *)
Definition isEmpty (s : string) : bool := String.eqb s EmptyString.

(** ** Objects *)

(** Objects that the C++ code handles through pointers are identified by an
    address. *)
Definition addr : Type := nat.

(** Modelled from the spec: the enumeration [DeviceType], declared in a
    header outside mmg-device.cpp. Besides the two directions it has
    a third value, which [isActive] and [setActive] treat in their [default]
    branches (the coarse query that the spec calls Either). *)
Inductive DeviceType : Type :=
| TYPE_NONE
| TYPE_INPUT
| TYPE_OUTPUT.

(** What the device core takes from the rest of the plug-in: the transport
    behind the base class [MMGMIDIPort] (a port pair with state [P]), the
    state in which the base-class constructor leaves a new object, the
    capability query for the third [DeviceType] value, and the translation
    table [mmgtr]. None of these is defined in mmg-device.cpp; the
    development holds for every choice of them. *)
Class MMGMIDIPort (P : Type) : Type := {
  transport_open : DeviceType -> P -> P;
  transport_close : DeviceType -> P -> P;
  transport_isOpen : DeviceType -> P -> bool;
  isCapableEither : Z -> bool;
  new_port : QJsonObject -> P;
  new_capable : QJsonObject -> Z;
  new_editable : QJsonObject -> bool;
  mmgtr : string -> string
}.

(** One [MMGDevice] object: its own members [_active] and [_thru], and what
    it inherits ([objectName], [editable], the capability mask and the
    port pair). *)
Record MMGDevice (P : Type) : Type := mkDevice {
  objectName : string;
  editable : bool;
  _active : Z;
  _capable : Z;
  _thru : string;
  port : P
}.

Arguments mkDevice {P}.
Arguments objectName {P}.
Arguments editable {P}.
Arguments _active {P}.
Arguments _capable {P}.
Arguments _thru {P}.
Arguments port {P}.

(** Modelled from the spec: [MMGMessage] (declared in mmg-message.h, outside
    mmg-device.cpp) holds a device-name string and a possibly-null Device
    back-reference. *)
Record MMGMessage : Type := mkMessage {
  m_addr : addr;
  deviceName : string;
  device : option addr
}.

(** Modelled from the spec: [MMGBinding] (declared in mmg-binding.h, outside
    mmg-device.cpp) is an ordered sequence of messages with a [refresh] operation. *)
Record MMGBinding : Type := mkBinding {
  b_addr : addr;
  messages : list MMGMessage
}.

(** A collection ([MMGBindingManager]) is an ordered sequence of bindings. *)
Abbreviation MMGBindingManager := (list MMGBinding).

(** Modelled from the spec: [MMGConfig] (declared in mmg-config.h, outside
    mmg-device.cpp) gives an ordered sequence of collections. Each binding belongs to
    one collection and each message to one binding, so the tree is kept as
    a value and [setDevice] on a message rebuilds its path. *)
Record MMGConfig : Type := mkConfig {
  collections : list MMGBindingManager
}.

(** ** Calls that leave the file *)

Inductive Event : Type :=
| EOpenPort (type : DeviceType)
| EClosePort (type : DeviceType)
| EIsPortOpen (type : DeviceType)
| ESetCapable (type : DeviceType) (capable : bool)
| EPromptUser (what : string)
| EBlog (text : string)
| ERefresh (binding : addr)
| ERemove (dev : addr)
| ENew (dev : addr)
| EManagerAdd (dev : addr)
| ESetDevice (message : addr) (dev : addr).

Definition is_transport (e : Event) : bool :=
  match e with
  | EOpenPort _ | EClosePort _ | EIsPortOpen _ => true
  | _ => false
  end.

Definition is_refresh (e : Event) : bool :=
  match e with
  | ERefresh _ => true
  | _ => false
  end.

Definition is_setDevice (e : Event) : bool :=
  match e with
  | ESetDevice _ _ => true
  | _ => false
  end.

(** Calls made by the manager only. *)
Definition is_manager_call (e : Event) : bool :=
  match e with
  | ERemove _ | ENew _ | EManagerAdd _ | ESetDevice _ _ => true
  | _ => false
  end.

Definition is_PortOpenError (e : Event) : bool :=
  match e with
  | EPromptUser what => String.eqb what "PortOpenError"
  | _ => false
  end.

(** The bindings refreshed by a trace, in call order. *)
Fixpoint refreshed (tr : list Event) : list addr :=
  match tr with
  | [] => []
  | ERefresh b :: tr' => b :: refreshed tr'
  | _ :: tr' => refreshed tr'
  end.

(** [raised tr]: the trace reports a PortOpenError to the user. *)
Definition raised (tr : list Event) : bool := existsb is_PortOpenError tr.

(** ** Sequential code: state and trace *)

(** A piece of C++ that runs on a state [S], returns an [A] and makes the
    calls listed in the trace. *)
Definition Act (S A : Type) : Type := S -> A * S * list Event.

Definition ret {S A} (a : A) : Act S A := fun s => (a, s, []).

Definition bind {S A B} (m : Act S A) (k : A -> Act S B) : Act S B :=
  fun s =>
    let '(a, s1, t1) := m s in
    let '(b, s2, t2) := k a s1 in
    (b, s2, t1 ++ t2).

Definition get {S} : Act S S := fun s => (s, s, []).
Definition put {S} (s : S) : Act S unit := fun _ => (tt, s, []).
Definition emit {S} (e : Event) : Act S unit := fun s => (tt, s, [e]).

Declare Scope act_scope.
Delimit Scope act_scope with act.
Notation "x <- m ;; k" := (bind m (fun x => k))
  (at level 100, m at next level, right associativity) : act_scope.
Notation "m ;; k" := (bind m (fun _ => k))
  (at level 100, right associativity) : act_scope.
Local Open Scope act_scope.

(** A range-based [for] whose body returns nothing. *)
Fixpoint for_each {S A} (l : list A) (body : A -> Act S unit) : Act S unit :=
  match l with
  | [] => ret tt
  | x :: l' => body x ;; for_each l' body
  end.

(** A range-based [for] that may change the element it visits. *)
Fixpoint for_each_mut {S A} (l : list A) (body : A -> Act S A) : Act S (list A) :=
  match l with
  | [] => ret []
  | x :: l' => y <- body x ;; ys <- for_each_mut l' body ;; ret (y :: ys)
  end.

Definition result {S A} (r : A * S * list Event) : A := fst (fst r).
Definition state {S A} (r : A * S * list Event) : S := snd (fst r).
Definition trace {S A} (r : A * S * list Event) : list Event := snd r.

(** ** MMGDevice *)

Section Device.

Context {P : Type} `{MMGMIDIPort P}.

Definition set_active (a : Z) (d : MMGDevice P) : MMGDevice P :=
  mkDevice (objectName d) (editable d) a (_capable d) (_thru d) (port d).

Definition set_capable (c : Z) (d : MMGDevice P) : MMGDevice P :=
  mkDevice (objectName d) (editable d) (_active d) c (_thru d) (port d).

Definition set_thru (t : string) (d : MMGDevice P) : MMGDevice P :=
  mkDevice (objectName d) (editable d) (_active d) (_capable d) t (port d).

Definition set_port (p : P) (d : MMGDevice P) : MMGDevice P :=
  mkDevice (objectName d) (editable d) (_active d) (_capable d) (_thru d) p.

(** The bit of a direction in [_active] and in the capability mask:
    bit 0 for input, bit 1 for output; the third value owns no bit. *)
Definition type_mask (type : DeviceType) : Z :=
  match type with
  | TYPE_INPUT => 1
  | TYPE_OUTPUT => 2
  | TYPE_NONE => 0
  end.

(** *** Inherited members *)

Definition openPort (type : DeviceType) : Act (MMGDevice P) unit :=
  fun d => (tt, set_port (transport_open type (port d)) d, [EOpenPort type]).

Definition closePort (type : DeviceType) : Act (MMGDevice P) unit :=
  fun d => (tt, set_port (transport_close type (port d)) d, [EClosePort type]).

Definition isPortOpen (type : DeviceType) : Act (MMGDevice P) bool :=
  fun d => (transport_isOpen type (port d), d, [EIsPortOpen type]).

(** Modelled from the spec: [isCapable] of the base class reads the
    capability mask, bit 0 for input and bit 1 for output. What it answers
    for the third [DeviceType] value is left to [isCapableEither]. *)
Definition isCapable (type : DeviceType) (d : MMGDevice P) : bool :=
  match type with
  | TYPE_INPUT => to_bool (Z.land (_capable d) 1)
  | TYPE_OUTPUT => to_bool (Z.land (_capable d) 2)
  | TYPE_NONE => isCapableEither (_capable d)
  end.

(** Modelled from the spec: [setCapable] of the base class records the
    capability of one direction in its bit of the capability mask. *)
Definition setCapable (type : DeviceType) (capable : bool) : Act (MMGDevice P) unit :=
  fun d =>
    (tt,
     set_capable (if capable then Z.lor (_capable d) (type_mask type)
                  else Z.ldiff (_capable d) (type_mask type)) d,
     [ESetCapable type capable]).

Definition promptUser {S} (what : string) : Act S unit := emit (EPromptUser what).
Definition blog {S} (text : string) : Act S unit := emit (EBlog text).
Definition refresh {S} (binding : MMGBinding) : Act S unit := emit (ERefresh (b_addr binding)).

(** *** MMGDevice::isActive *)

Definition isActive (type : DeviceType) (d : MMGDevice P) : bool :=
  match type with
  | TYPE_INPUT => to_bool (Z.land (_active d) 1)
  | TYPE_OUTPUT => to_bool (Z.land (_active d) 2)
  | _ => 0 <? _active d
  end.

(** *** MMGDevice::setActive *)

(** The test in the inner loop: the binding has a first message and that
    message names [name]. *)
Definition firstMessageUses (name : string) (binding : MMGBinding) : bool :=
  match messages binding with
  | message :: _ => String.eqb (deviceName message) name
  | [] => false
  end.

(** The block under [if (active)]: with a configuration, refresh every
    binding whose first message names this device. *)
Definition refreshFirstMessageBindings (cfg : option MMGConfig) : Act (MMGDevice P) unit :=
  match cfg with
  | Some cfg =>
      for_each (collections cfg) (fun collection =>
        for_each collection (fun binding =>
          d <- get ;;
          let needsRefresh := firstMessageUses (objectName d) binding in
          if needsRefresh then refresh binding else ret tt))
  | None => ret tt
  end.

Definition setActive (cfg : option MMGConfig) (type : DeviceType) (active : bool)
  : Act (MMGDevice P) unit :=
  d <- get ;;
  if negb (editable d) || Bool.eqb (isActive type d) active || negb (isCapable type d)
  then ret tt
  else
    ((if negb (isActive type d) then openPort type else closePort type) ;;
     open <- isPortOpen type ;;
     d1 <- get ;;
     if Bool.eqb open (isActive type d1)
     then promptUser "PortOpenError"
     else
       (match type with
        | TYPE_INPUT => put (set_active (Z.lxor (_active d1) 1) d1)
        | TYPE_OUTPUT => put (set_active (Z.lxor (_active d1) 2) d1)
        | _ => ret tt
        end ;;
        if active then refreshFirstMessageBindings cfg else ret tt)).

(** *** MMGDevice::update *)

Definition update (cfg : option MMGConfig) (json_obj : QJsonObject) : Act (MMGDevice P) unit :=
  let activeState := to_uint (toInt (at_key json_obj "active")) in
  (if to_bool (Z.land activeState 1)
   then setActive cfg TYPE_INPUT true
   else setActive cfg TYPE_INPUT false) ;;
  (if to_bool (Z.land activeState 2)
   then setActive cfg TYPE_OUTPUT true
   else setActive cfg TYPE_OUTPUT false) ;;
  d <- get ;;
  put (set_thru (toString (at_key json_obj "thru")) d).

(** *** MMGDevice::json *)

Definition json (d : MMGDevice P) (device_obj : QJsonObject) : QJsonObject :=
  let device_obj := <["name" := JString (objectName d)]> device_obj in
  let device_obj := <["active" := JNumber (to_int (_active d))]> device_obj in
  if negb (isEmpty (_thru d))
  then <["thru" := JString (_thru d)]> device_obj
  else device_obj.

(** *** MMGDevice::checkCapable *)

Definition checkCapable (cfg : option MMGConfig) : Act (MMGDevice P) unit :=
  d <- get ;;
  let active := _active d in
  put (set_active 0 d) ;;
  blog "Checking device capabilities..." ;;
  closePort TYPE_INPUT ;;
  closePort TYPE_OUTPUT ;;
  openPort TYPE_INPUT ;;
  open <- isPortOpen TYPE_INPUT ;;
  setCapable TYPE_INPUT open ;;
  openPort TYPE_OUTPUT ;;
  open <- isPortOpen TYPE_OUTPUT ;;
  setCapable TYPE_OUTPUT open ;;
  closePort TYPE_INPUT ;;
  closePort TYPE_OUTPUT ;;
  blog "Device capabilities checked. Re-opening active ports..." ;;
  setActive cfg TYPE_INPUT (to_bool (Z.land active 1)) ;;
  setActive cfg TYPE_OUTPUT (to_bool (Z.land active 2)).

End Device.

(** ** MMGDeviceManager *)

Section Manager.

Context {P : Type} `{MMGMIDIPort P}.

(** What the manager's methods run on: the device objects by address, the
    manager's [_list] of devices in insertion order, and what the global
    [config()] returns (null before the configuration exists). Several
    messages may hold the address of one device; they all see the changes
    made to it through [heap]. *)
Record World : Type := mkWorld {
  heap : gmap addr (MMGDevice P);
  _list : list addr;
  config : option MMGConfig
}.

Definition set_heap (h : gmap addr (MMGDevice P)) (w : World) : World :=
  mkWorld h (_list w) (config w).

Definition set_list (l : list addr) (w : World) : World :=
  mkWorld (heap w) l (config w).

Definition set_config (c : option MMGConfig) (w : World) : World :=
  mkWorld (heap w) (_list w) c.

(** A method call through a device pointer. *)
Definition on_device {A} (a : addr) (m : Act (MMGDevice P) A) : Act World unit :=
  fun w =>
    match heap w !! a with
    | Some d => let '(_, d', tr) := m d in (tt, set_heap (<[a := d']> (heap w)) w, tr)
    | None => (tt, w, [])
    end.

(** [message->device()->objectName() == devName], for a non-null
    back-reference. *)
Definition named (w : World) (a : addr) (devName : string) : bool :=
  match heap w !! a with
  | Some d => String.eqb (objectName d) devName
  | None => false
  end.

(** *** Inherited from MMGManager *)

(** Modelled from the spec: [find] of the manager template (mmg-manager.h,
    outside mmg-device.cpp) is an exact-name lookup that returns null if no
    device has the name. *)
Definition find (name : string) (w : World) : option addr :=
  List.find (fun a => named w a name) (_list w).

(** [QList::removeOne]. *)
Fixpoint removeOne (a : addr) (l : list addr) : list addr :=
  match l with
  | [] => []
  | b :: l' => if Nat.eqb a b then l' else b :: removeOne a l'
  end.

(** Modelled from the spec: [remove] of the manager template deletes the
    entry of a device and repoints nothing. The object's record stays
    readable in [heap], so that a back-reference to a removed device can
    still be asked for its name. *)
Definition remove (dev : addr) : Act World unit :=
  fun w => (tt, set_list (removeOne dev (_list w)) w, [ERemove dev]).

(** Modelled from the spec: [MMGManager::add] registers the new object
    under its name, after the devices already there. *)
Definition MMGManager_add (dev : addr) : Act World unit :=
  fun w => (tt, set_list (_list w ++ [dev]) w, [EManagerAdd dev]).

(** *** The constructor *)

(** Modelled from the spec: the constructor of the base class [MMGMIDIPort]
    (defined outside mmg-device.cpp) names the object after the record's name. The
    rest of the state in which it leaves the object is given by
    [new_editable], [new_capable] and [new_port]; no direction is active
    and there is no thru name yet. *)
Definition base_object (json_obj : QJsonObject) : MMGDevice P :=
  mkDevice (toString (at_key json_obj "name")) (new_editable json_obj)
    0 (new_capable json_obj) EmptyString (new_port json_obj).

(** [new MMGDevice(this, json_obj)]: a new object, the base-class
    constructor, then the body [update(json_obj)]. *)
Definition new_MMGDevice (json_obj : QJsonObject) : Act World addr :=
  fun w =>
    let this := fresh (dom (heap w)) in
    let '(_, d, tr) := update (config w) json_obj (base_object json_obj) in
    (this, set_heap (<[this := d]> (heap w)) w, ENew this :: tr).

(** *** MMGDeviceManager::updateDeviceReferences *)

Definition setDevice (message : MMGMessage) (dev : addr) : Act World MMGMessage :=
  fun w => (mkMessage (m_addr message) (deviceName message) (Some dev), w,
            [ESetDevice (m_addr message) dev]).

(** The test of the inner loop. Reading the name of a device that is not in
    [heap] has no counterpart in the C++ (the pointer would be wild); the
    model answers no. *)
Definition needsRepoint (w : World) (devName : string) (message : MMGMessage) : bool :=
  match device message with
  | None => true
  | Some a => named w a devName
  end.

Definition updateDeviceReferences (devName : string) (newDevice : addr) : Act World unit :=
  w <- get ;;
  match config w with
  | None => ret tt
  | Some cfg =>
      colls <- for_each_mut (collections cfg) (fun collection =>
        for_each_mut collection (fun binding =>
          msgs <- for_each_mut (messages binding) (fun message =>
            w <- get ;;
            if needsRepoint w devName message
            then setDevice message newDevice
            else ret message) ;;
          ret (mkBinding (b_addr binding) msgs))) ;;
      w <- get ;;
      put (set_config (Some (mkConfig colls)) w)
  end.

(** *** MMGDeviceManager::refreshBindingsForDevice *)

(** The inner loop with its [break]: some message of the binding names
    [devName]. *)
Definition anyMessageUses (devName : string) (binding : MMGBinding) : bool :=
  existsb (fun message => String.eqb (deviceName message) devName) (messages binding).

Definition refreshBindingsForDevice (devName : string) : Act World unit :=
  w <- get ;;
  match config w with
  | None => ret tt
  | Some cfg =>
      for_each (collections cfg) (fun collection =>
        for_each collection (fun binding =>
          let needsRefresh := anyMessageUses devName binding in
          if needsRefresh then refresh binding else ret tt))
  end.

(** *** MMGDeviceManager::add *)

Definition add (json_obj : QJsonObject) : Act World addr :=
  let devName := toString (at_key json_obj "name") in
  w <- get ;;
  match find devName w with
  | Some current_device =>
      on_device current_device (update (config w) json_obj) ;;
      refreshBindingsForDevice devName ;;
      ret current_device
  | None =>
      match find (mmgtr "Device.Dummy") w with
      | Some dummy => remove dummy
      | None => ret tt
      end ;;
      newDevice <- new_MMGDevice json_obj ;;
      MMGManager_add newDevice ;;
      updateDeviceReferences devName newDevice ;;
      refreshBindingsForDevice devName ;;
      ret newDevice
  end.

(** [MMGDeviceManager::add(const QString &name)]. *)
Definition add_name (name : string) : Act World addr :=
  let json_obj : QJsonObject := <["name" := JString name]> ∅ in
  add json_obj.

(** *** MMGDeviceManager::capableDevices *)

Definition capableDevices (type : DeviceType) (w : World) : list string :=
  flat_map (fun a =>
    match heap w !! a with
    | Some device => if isCapable type device then [objectName device] else []
    | None => []
    end) (_list w).

(** All bindings of the tree, in the order in which the loops visit them. *)
Definition all_bindings (cfg : option MMGConfig) : list MMGBinding :=
  match cfg with
  | Some cfg => concat (collections cfg)
  | None => []
  end.

End Manager.

Arguments World P : clear implicits.

(** ** A simulated port pair

    A concrete transport for running the code. Each direction has a piece
    of hardware that is either present ([hw_in], [hw_out]) or not, and a
    port that is open or closed. After an attempt to open a direction its
    port is open exactly when the hardware is present. A new device starts
    editable, capable of both directions, with both ports closed. *)
Module Sim.

Record Port : Type := mkPort {
  open_in : bool;
  open_out : bool
}.

Definition sim_open (hw_in hw_out : bool) (type : DeviceType) (p : Port) : Port :=
  match type with
  | TYPE_INPUT => mkPort hw_in (open_out p)
  | TYPE_OUTPUT => mkPort (open_in p) hw_out
  | TYPE_NONE => p
  end.

Definition sim_close (type : DeviceType) (p : Port) : Port :=
  match type with
  | TYPE_INPUT => mkPort false (open_out p)
  | TYPE_OUTPUT => mkPort (open_in p) false
  | TYPE_NONE => p
  end.

Definition sim_isOpen (type : DeviceType) (p : Port) : bool :=
  match type with
  | TYPE_INPUT => open_in p
  | TYPE_OUTPUT => open_out p
  | TYPE_NONE => false
  end.

Definition sim_port (hw_in hw_out : bool) : MMGMIDIPort Port := {|
  transport_open := sim_open hw_in hw_out;
  transport_close := sim_close;
  transport_isOpen := sim_isOpen;
  isCapableEither := fun c => 0 <? c;
  new_port := fun _ => mkPort false false;
  new_capable := fun _ => 3;
  new_editable := fun _ => true;
  mmgtr := fun key => key
|}.

(** The port pair with both pieces of hardware present. *)
#[export] Instance working : MMGMIDIPort Port := sim_port true true.

(** Both ports closed. *)
Definition closed : Port := mkPort false false.

(** Replays the port calls of a trace on the working port pair and lists
    the states it goes through. *)
Fixpoint replay (tr : list Event) (p : Port) : list Port :=
  match tr with
  | [] => [p]
  | EOpenPort type :: tr' => p :: replay tr' (sim_open true true type p)
  | EClosePort type :: tr' => p :: replay tr' (sim_close type p)
  | _ :: tr' => replay tr' p
  end.

Definition both_open (p : Port) : bool := open_in p && open_out p.

(** *** Sample devices, trees, records and worlds *)

(** Device "A": editable, capable of both directions, inactive, closed. *)
Definition device_A : MMGDevice Port := mkDevice "A" true 0 3 EmptyString closed.

(** Device "A" before any probe found a capability. *)
Definition incapable_A : MMGDevice Port := mkDevice "A" true 0 0 EmptyString closed.

(** Device "A" with input active and its port open. *)
Definition input_A : MMGDevice Port := mkDevice "A" true 1 3 EmptyString (mkPort true false).

(** The same, not editable. *)
Definition locked_input_A : MMGDevice Port := mkDevice "A" false 1 3 EmptyString (mkPort true false).

(** The placeholder device. *)
Definition dummy : MMGDevice Port := mkDevice "Device.Dummy" true 0 0 EmptyString closed.

(** One collection of two bindings: the first message of binding 7 names
    "A"; binding 8 names "A" in its second message only. *)
Definition tree_A : option MMGConfig :=
  Some (mkConfig
          [[mkBinding 7%nat [mkMessage 1%nat "A" None; mkMessage 2%nat "B" None];
            mkBinding 8%nat [mkMessage 3%nat "B" None; mkMessage 4%nat "A" None]]]).

(** One binding whose only message names "Real" and has no device yet. *)
Definition tree_Real : option MMGConfig :=
  Some (mkConfig [[mkBinding 7%nat [mkMessage 1%nat "Real" None]]]).

(** Records: a name and an active mask, and possibly a thru name. *)
Definition record (name : string) (active : Z) : QJsonObject :=
  <["name" := JString name]> (<["active" := JNumber active]> ∅).

Definition record_thru (name : string) (active : Z) (thru : string) : QJsonObject :=
  <["thru" := JString thru]> (record name active).

(** A registry that holds only the placeholder. *)
Definition world_dummy : World Port :=
  mkWorld (<[5%nat := dummy]> ∅) [5%nat] tree_Real.

(** A registry that holds device "A". *)
Definition world_A : World Port :=
  mkWorld (<[1%nat := device_A]> ∅) [1%nat] tree_A.

(** A registry that holds device "A", not capable of any direction. *)
Definition world_incapable : World Port :=
  mkWorld (<[1%nat := incapable_A]> ∅) [1%nat] tree_A.

(** *** A port pair that can be lost

    The input hardware can be opened [opens_left] more times; after that
    (another program has taken it) an attempt to open it leaves the port
    closed. The output hardware is always there. *)
Record Scarce : Type := mkScarce {
  opens_left : nat;
  scarce_in : bool;
  scarce_out : bool
}.

Definition scarce_open (type : DeviceType) (p : Scarce) : Scarce :=
  match type with
  | TYPE_INPUT =>
      match opens_left p with
      | O => mkScarce O false (scarce_out p)
      | S n => mkScarce n true (scarce_out p)
      end
  | TYPE_OUTPUT => mkScarce (opens_left p) (scarce_in p) true
  | TYPE_NONE => p
  end.

Definition scarce_close (type : DeviceType) (p : Scarce) : Scarce :=
  match type with
  | TYPE_INPUT => mkScarce (opens_left p) false (scarce_out p)
  | TYPE_OUTPUT => mkScarce (opens_left p) (scarce_in p) false
  | TYPE_NONE => p
  end.

Definition scarce_isOpen (type : DeviceType) (p : Scarce) : bool :=
  match type with
  | TYPE_INPUT => scarce_in p
  | TYPE_OUTPUT => scarce_out p
  | TYPE_NONE => false
  end.

Definition scarce : MMGMIDIPort Scarce := {|
  transport_open := scarce_open;
  transport_close := scarce_close;
  transport_isOpen := scarce_isOpen;
  isCapableEither := fun c => 0 <? c;
  new_port := fun _ => mkScarce 1 false false;
  new_capable := fun _ => 3;
  new_editable := fun _ => true;
  mmgtr := fun key => key
|}.

(** Device "A" on such a pair: editable, input active and open, one more
    opening of the input left. *)
Definition scarce_input_A : MMGDevice Scarce :=
  mkDevice "A" true 1 3 EmptyString (mkScarce 1 true false).

(** One binding, two of whose messages name "A". *)
Definition tree_AA : option MMGConfig :=
  Some (mkConfig
          [[mkBinding 9%nat [mkMessage 1%nat "A" None; mkMessage 2%nat "A" None]]]).

(** Device "B": capable of input only. *)
Definition device_B : MMGDevice Port := mkDevice "B" true 0 1 EmptyString closed.

(** A registry that holds "A" and "B". *)
Definition world_AB : World Port :=
  mkWorld (<[1%nat := device_A]> (<[2%nat := device_B]> ∅)) [1%nat; 2%nat] tree_AA.

(** The same with two more openings of the input left. *)
Definition scarce_twice_A : MMGDevice Scarce :=
  mkDevice "A" true 1 3 EmptyString (mkScarce 2 true false).

(** A registry without configuration. *)
Definition world_null : World Port :=
  mkWorld (<[1%nat := device_A]> ∅) [1%nat] None.

End Sim.

(** ** Vocabulary for the statements *)

Section Vocabulary.

Context {P : Type} `{MMGMIDIPort P}.

(** The guard at the head of [setActive]. *)
Definition ignored (type : DeviceType) (active : bool) (d : MMGDevice P) : bool :=
  negb (editable d) || Bool.eqb (isActive type d) active || negb (isCapable type d).

(** The device after the port call of [setActive]. *)
Definition toggled (type : DeviceType) (d : MMGDevice P) : MMGDevice P :=
  set_port (if negb (isActive type d)
            then transport_open type (port d)
            else transport_close type (port d)) d.

Definition toggle_event (type : DeviceType) (d : MMGDevice P) : Event :=
  if negb (isActive type d) then EOpenPort type else EClosePort type.

(** The test after the port call: the port is not in the state asked for. *)
Definition mismatch (type : DeviceType) (d : MMGDevice P) : bool :=
  Bool.eqb (transport_isOpen type (port (toggled type d))) (isActive type d).

(** The [switch] of [setActive]. *)
Definition flipped (type : DeviceType) (d : MMGDevice P) : MMGDevice P :=
  match type with
  | TYPE_INPUT => set_active (Z.lxor (_active d) 1) d
  | TYPE_OUTPUT => set_active (Z.lxor (_active d) 2) d
  | TYPE_NONE => d
  end.

(** The bindings whose first message names [name], in visiting order. *)
Definition first_message_bindings (name : string) (cfg : option MMGConfig) : list addr :=
  map b_addr (List.filter (firstMessageUses name) (all_bindings cfg)).

(** The bindings one of whose messages names [name], in visiting order. *)
Definition any_message_bindings (name : string) (cfg : option MMGConfig) : list addr :=
  map b_addr (List.filter (anyMessageUses name) (all_bindings cfg)).

(** A direction proper: input or output. *)
Definition is_direction (type : DeviceType) : bool :=
  match type with
  | TYPE_INPUT | TYPE_OUTPUT => true
  | TYPE_NONE => false
  end.

Definition other (type : DeviceType) : DeviceType :=
  match type with
  | TYPE_INPUT => TYPE_OUTPUT
  | TYPE_OUTPUT => TYPE_INPUT
  | TYPE_NONE => TYPE_NONE
  end.

(** What a record asks of one direction ([update]). *)
Definition requested (json_obj : QJsonObject) (type : DeviceType) : bool :=
  to_bool (Z.land (to_uint (toInt (at_key json_obj "active"))) (type_mask type)).

(** The repointing of [updateDeviceReferences] on one message, one binding
    and the whole tree. *)
Definition repoint_message (w : World P) (devName : string) (newDevice : addr)
    (message : MMGMessage) : MMGMessage :=
  if needsRepoint w devName message
  then mkMessage (m_addr message) (deviceName message) (Some newDevice)
  else message.

Definition repoint_binding (w : World P) (devName : string) (newDevice : addr)
    (binding : MMGBinding) : MMGBinding :=
  mkBinding (b_addr binding) (map (repoint_message w devName newDevice) (messages binding)).

Definition repoint_config (w : World P) (devName : string) (newDevice : addr)
    (cfg : MMGConfig) : MMGConfig :=
  mkConfig (map (map (repoint_binding w devName newDevice)) (collections cfg)).

(** The [setDevice] calls of the repointing, in visiting order. *)
Definition repoint_events (w : World P) (devName : string) (newDevice : addr)
    (cfg : option MMGConfig) : list Event :=
  flat_map (fun binding =>
    flat_map (fun message =>
      if needsRepoint w devName message
      then [ESetDevice (m_addr message) newDevice] else [])
      (messages binding))
    (all_bindings cfg).

(** The transport calls that the spec words give for the probe of
    [checkCapable]: input is closed again before output is opened. *)
Definition probe_order_of_the_spec : list Event :=
  [EClosePort TYPE_INPUT; EClosePort TYPE_OUTPUT;
   EOpenPort TYPE_INPUT; EIsPortOpen TYPE_INPUT; EClosePort TYPE_INPUT;
   EOpenPort TYPE_OUTPUT; EIsPortOpen TYPE_OUTPUT; EClosePort TYPE_OUTPUT].

(** The transport calls of the probe in mmg-device.cpp. *)
Definition probe_order : list Event :=
  [EClosePort TYPE_INPUT; EClosePort TYPE_OUTPUT;
   EOpenPort TYPE_INPUT; EIsPortOpen TYPE_INPUT;
   EOpenPort TYPE_OUTPUT; EIsPortOpen TYPE_OUTPUT;
   EClosePort TYPE_INPUT; EClosePort TYPE_OUTPUT].

(** The port states of the probe: after the two closes, after opening
    input, after opening output, after the final closes. *)
Definition probe_closed (p : P) : P :=
  transport_close TYPE_OUTPUT (transport_close TYPE_INPUT p).
Definition probe_input (p : P) : P := transport_open TYPE_INPUT (probe_closed p).
Definition probe_output (p : P) : P := transport_open TYPE_OUTPUT (probe_input p).
Definition probe_done (p : P) : P :=
  transport_close TYPE_OUTPUT (transport_close TYPE_INPUT (probe_output p)).

(** What the probe finds for a direction. *)
Definition found_capable (type : DeviceType) (p : P) : bool :=
  match type with
  | TYPE_INPUT => transport_isOpen TYPE_INPUT (probe_input p)
  | TYPE_OUTPUT => transport_isOpen TYPE_OUTPUT (probe_output p)
  | TYPE_NONE => false
  end.

(** The capability mask after the two [setCapable] calls of the probe. *)
Definition probed_capable (c : Z) (p : P) : Z :=
  let c := if found_capable TYPE_INPUT p
           then Z.lor c (type_mask TYPE_INPUT) else Z.ldiff c (type_mask TYPE_INPUT) in
  if found_capable TYPE_OUTPUT p
  then Z.lor c (type_mask TYPE_OUTPUT) else Z.ldiff c (type_mask TYPE_OUTPUT).

(** The device when the probe of [checkCapable] is over and the saved
    active state is about to be restored. *)
Definition probed (d : MMGDevice P) : MMGDevice P :=
  mkDevice (objectName d) (editable d) 0 (probed_capable (_capable d) (port d))
    (_thru d) (probe_done (port d)).

(** The calls of [checkCapable] up to that point. *)
Definition probe_calls (p : P) : list Event :=
  [EBlog "Checking device capabilities...";
   EClosePort TYPE_INPUT; EClosePort TYPE_OUTPUT;
   EOpenPort TYPE_INPUT; EIsPortOpen TYPE_INPUT;
   ESetCapable TYPE_INPUT (found_capable TYPE_INPUT p);
   EOpenPort TYPE_OUTPUT; EIsPortOpen TYPE_OUTPUT;
   ESetCapable TYPE_OUTPUT (found_capable TYPE_OUTPUT p);
   EClosePort TYPE_INPUT; EClosePort TYPE_OUTPUT;
   EBlog "Device capabilities checked. Re-opening active ports..."].

(** The two [setActive] calls that end [checkCapable]. *)
Definition restore_input (cfg : option MMGConfig) (d : MMGDevice P)
  : unit * MMGDevice P * list Event :=
  setActive cfg TYPE_INPUT (to_bool (Z.land (_active d) 1)) (probed d).

Definition restore_output (cfg : option MMGConfig) (d : MMGDevice P)
  : unit * MMGDevice P * list Event :=
  setActive cfg TYPE_OUTPUT (to_bool (Z.land (_active d) 2)) (state (restore_input cfg d)).

(** The port pair as the restoring [setActive] call of a direction finds
    it: after the probe for input, after the restoring call of input for
    output. *)
Definition restoring_port (cfg : option MMGConfig) (type : DeviceType)
    (d : MMGDevice P) : P :=
  match type with
  | TYPE_OUTPUT => port (state (restore_input cfg d))
  | _ => port (probed d)
  end.

(** What the transport reports for a direction once the restoring call
    has asked to open it. *)
Definition opens_again (cfg : option MMGConfig) (type : DeviceType)
    (d : MMGDevice P) : bool :=
  transport_isOpen type (transport_open type (restoring_port cfg type d)).

(** The two [setActive] calls of [update], the device it leaves and the
    calls it makes. *)
Definition update_input (cfg : option MMGConfig) (json_obj : QJsonObject)
    (d : MMGDevice P) : unit * MMGDevice P * list Event :=
  setActive cfg TYPE_INPUT (requested json_obj TYPE_INPUT) d.

Definition update_output (cfg : option MMGConfig) (json_obj : QJsonObject)
    (d : MMGDevice P) : unit * MMGDevice P * list Event :=
  setActive cfg TYPE_OUTPUT (requested json_obj TYPE_OUTPUT)
    (state (update_input cfg json_obj d)).

Definition updated (cfg : option MMGConfig) (json_obj : QJsonObject)
    (d : MMGDevice P) : MMGDevice P :=
  set_thru (toString (at_key json_obj "thru")) (state (update_output cfg json_obj d)).

Definition update_events (cfg : option MMGConfig) (json_obj : QJsonObject)
    (d : MMGDevice P) : list Event :=
  trace (update_input cfg json_obj d) ++ trace (update_output cfg json_obj d).

(** The first step of [add] for a new device: the registry without the
    placeholder, and the call that removes it. *)
Definition without_dummy (w : World P) : World P :=
  match find (mmgtr "Device.Dummy") w with
  | Some dummy => set_list (removeOne dummy (_list w)) w
  | None => w
  end.

Definition removal_events (w : World P) : list Event :=
  match find (mmgtr "Device.Dummy") w with
  | Some dummy => [ERemove dummy]
  | None => []
  end.

(** The world of [add] for a new device at the moment the references are
    repointed: the placeholder gone, the new device built and registered. *)
Definition registered (json_obj : QJsonObject) (w : World P) : World P :=
  let this := fresh (dom (heap w)) in
  mkWorld (<[this := updated (config w) json_obj (base_object json_obj)]> (heap w))
    (_list (without_dummy w) ++ [this]) (config w).

(** The names of the registered devices, in registry order. *)
Definition device_names (w : World P) : list string :=
  flat_map (fun a =>
    match heap w !! a with
    | Some d => [objectName d]
    | None => []
    end) (_list w).

(** All messages of the tree, in visiting order. *)
Definition all_messages (cfg : option MMGConfig) : list MMGMessage :=
  flat_map messages (all_bindings cfg).

(** [message->device()] is not null. *)
Definition has_device (message : MMGMessage) : bool :=
  match device message with
  | Some _ => true
  | None => false
  end.

Definition same_type (a b : DeviceType) : bool :=
  match a, b with
  | TYPE_NONE, TYPE_NONE | TYPE_INPUT, TYPE_INPUT | TYPE_OUTPUT, TYPE_OUTPUT => true
  | _, _ => false
  end.

(** A call to the transport that concerns another type than [x]. *)
Definition port_call_elsewhere (x : DeviceType) (e : Event) : bool :=
  match e with
  | EOpenPort type | EClosePort type | EIsPortOpen type => negb (same_type type x)
  | _ => false
  end.

(** A port operation that goes against the state asked for: closing when
    activation is asked, opening when deactivation is asked. *)
Definition against (want : bool) (e : Event) : bool :=
  match e with
  | EClosePort _ => want
  | EOpenPort _ => negb want
  | _ => false
  end.

End Vocabulary.

(** Some [refresh] call of the trace comes before some [setDevice] call. *)
Fixpoint refresh_then_setDevice (tr : list Event) : bool :=
  match tr with
  | [] => false
  | e :: tr' =>
      (is_refresh e && existsb is_setDevice tr') || refresh_then_setDevice tr'
  end.

(** ** Bits of the masks *)

Lemma to_bool_land_pow2 (a k : Z) :
  0 <= k -> to_bool (Z.land a (2 ^ k)) = Z.testbit a k.
Proof.
  intros Hk. unfold to_bool.
  destruct (Z.testbit a k) eqn:Hbit.
  - destruct (Z.eqb_spec (Z.land a (2 ^ k)) 0) as [Hz|]; [|reflexivity].
    assert (Hb : Z.testbit (Z.land a (2 ^ k)) k = true).
    { rewrite Z.land_spec, Hbit, Z.pow2_bits_true by assumption. reflexivity. }
    rewrite Hz, Z.bits_0 in Hb. discriminate.
  - assert (Hz : Z.land a (2 ^ k) = 0).
    { apply Z.bits_inj'. intros n Hn.
      rewrite Z.land_spec, Z.bits_0, Z.pow2_bits_eqb by assumption.
      destruct (Z.eqb_spec k n) as [->|]; [rewrite Hbit|]; auto using andb_false_r. }
    rewrite Hz. reflexivity.
Qed.

Lemma to_bool_land_1 (a : Z) : to_bool (Z.land a 1) = Z.testbit a 0.
Proof. exact (to_bool_land_pow2 a 0 (Z.le_refl 0)). Qed.

Lemma to_bool_land_2 (a : Z) : to_bool (Z.land a 2) = Z.testbit a 1.
Proof. apply (to_bool_land_pow2 a 1). lia. Qed.

(** The mask of a direction has the bit of that direction and no other. *)
Lemma type_mask_bits (type : DeviceType) (n : Z) :
  0 <= n ->
  Z.testbit (type_mask type) n
  = match type with
    | TYPE_INPUT => n =? 0
    | TYPE_OUTPUT => n =? 1
    | TYPE_NONE => false
    end.
Proof.
  intros Hn. destruct type; simpl.
  - apply Z.bits_0.
  - change 1 with (2 ^ 0). rewrite Z.pow2_bits_eqb by lia. apply Z.eqb_sym.
  - change 2 with (2 ^ 1). rewrite Z.pow2_bits_eqb by lia. apply Z.eqb_sym.
Qed.

(** ** Running sequential code *)

Lemma for_each_silent {S A} (f : A -> list Event) (body : A -> Act S unit) (l : list A) (s : S) :
  (forall x, body x s = (tt, s, f x)) ->
  for_each l body s = (tt, s, flat_map f l).
Proof.
  intros Hbody. induction l as [|x l IH]; simpl.
  - reflexivity.
  - unfold bind. rewrite Hbody, IH. reflexivity.
Qed.

Lemma for_each_mut_pure {S A} (g : A -> A) (f : A -> list Event)
    (body : A -> Act S A) (l : list A) (s : S) :
  (forall x, body x s = (g x, s, f x)) ->
  for_each_mut l body s = (map g l, s, flat_map f l).
Proof.
  intros Hbody. induction l as [|x l IH]; simpl.
  - reflexivity.
  - unfold bind. rewrite Hbody, IH. simpl. rewrite app_nil_r. reflexivity.
Qed.

Lemma flat_map_concat {A B} (f : A -> list B) (ls : list (list A)) :
  flat_map (flat_map f) ls = flat_map f (concat ls).
Proof.
  induction ls as [|l ls IH]; simpl.
  - reflexivity.
  - rewrite IH. symmetry. apply flat_map_app.
Qed.

Lemma flat_map_filter_map {A B} (p : A -> bool) (g : A -> B) (l : list A) :
  flat_map (fun x => if p x then [g x] else []) l = map g (List.filter p l).
Proof.
  induction l as [|x l IH]; simpl.
  - reflexivity.
  - rewrite IH. destruct (p x); reflexivity.
Qed.

Lemma refreshed_app (t1 t2 : list Event) :
  refreshed (t1 ++ t2) = refreshed t1 ++ refreshed t2.
Proof.
  induction t1 as [|e t1 IH]; simpl.
  - reflexivity.
  - destruct e; simpl; rewrite ?IH; reflexivity.
Qed.

Lemma refreshed_map_ERefresh (l : list addr) : refreshed (map ERefresh l) = l.
Proof. induction l as [|b l IH]; simpl; [|rewrite IH]; reflexivity. Qed.

Lemma raised_app (t1 t2 : list Event) : raised (t1 ++ t2) = raised t1 || raised t2.
Proof. apply existsb_app. Qed.

Lemma raised_map_ERefresh (l : list addr) : raised (map ERefresh l) = false.
Proof. induction l as [|b l IH]; simpl; [|exact IH]; reflexivity. Qed.

(** ** Facts about MMGDevice *)

Section DeviceFacts.

Context {P : Type} `{MMGMIDIPort P}.

Lemma isActive_INPUT (d : MMGDevice P) : isActive TYPE_INPUT d = Z.testbit (_active d) 0.
Proof. apply to_bool_land_1. Qed.

Lemma isActive_OUTPUT (d : MMGDevice P) : isActive TYPE_OUTPUT d = Z.testbit (_active d) 1.
Proof. apply to_bool_land_2. Qed.

(** The cascade under [if (active)] changes nothing in the device and
    refreshes the bindings whose first message names it, each once, in
    visiting order. *)
Lemma refreshFirstMessageBindings_run (cfg : option MMGConfig) (d : MMGDevice P) :
  refreshFirstMessageBindings cfg d
  = (tt, d, map ERefresh (first_message_bindings (objectName d) cfg)).
Proof.
  unfold first_message_bindings. rewrite map_map.
  destruct cfg as [cfg|]; simpl; [|reflexivity].
  rewrite <- flat_map_filter_map, <- flat_map_concat.
  apply for_each_silent. intros collection.
  apply for_each_silent. intros binding.
  unfold bind, get. simpl.
  destruct (firstMessageUses (objectName d) binding); reflexivity.
Qed.

(** [setActive], branch by branch. *)
Lemma setActive_cases (cfg : option MMGConfig) (type : DeviceType) (active : bool)
    (d : MMGDevice P) :
  setActive cfg type active d
  = if ignored type active d then (tt, d, [])
    else if mismatch type d
    then (tt, toggled type d,
          [toggle_event type d; EIsPortOpen type; EPromptUser "PortOpenError"])
    else (tt, flipped type (toggled type d),
          [toggle_event type d; EIsPortOpen type]
          ++ (if active
              then map ERefresh (first_message_bindings (objectName d) cfg)
              else [])).
Proof.
  unfold setActive, ignored, mismatch, toggled, toggle_event, bind, get. simpl.
  destruct (negb (editable d) || Bool.eqb (isActive type d) active
            || negb (isCapable type d)); [reflexivity|].
  destruct (negb (isActive type d)) eqn:Hact; simpl.
  - replace (isActive type (set_port (transport_open type (port d)) d))
      with (isActive type d) by (destruct type; reflexivity).
    destruct (Bool.eqb _ (isActive type d)); [reflexivity|].
    destruct type, active; simpl;
      rewrite ?refreshFirstMessageBindings_run; reflexivity.
  - replace (isActive type (set_port (transport_close type (port d)) d))
      with (isActive type d) by (destruct type; reflexivity).
    destruct (Bool.eqb _ (isActive type d)); [reflexivity|].
    destruct type, active; simpl;
      rewrite ?refreshFirstMessageBindings_run; reflexivity.
Qed.

Lemma isActive_toggled (type type' : DeviceType) (d : MMGDevice P) :
  isActive type' (toggled type d) = isActive type' d.
Proof. destruct type'; reflexivity. Qed.

Lemma isActive_flipped (type : DeviceType) (d : MMGDevice P) :
  is_direction type = true ->
  isActive type (flipped type d) = negb (isActive type d).
Proof.
  destruct type; [discriminate| |]; intros _.
  - rewrite !isActive_INPUT. cbn [flipped set_active _active]. rewrite Z.lxor_spec. reflexivity.
  - rewrite !isActive_OUTPUT. cbn [flipped set_active _active]. rewrite Z.lxor_spec. reflexivity.
Qed.

Lemma isActive_flipped_other (type : DeviceType) (d : MMGDevice P) :
  is_direction type = true ->
  isActive (other type) (flipped type d) = isActive (other type) d.
Proof.
  destruct type; [discriminate| |]; intros _; simpl other.
  - rewrite !isActive_OUTPUT. cbn [flipped set_active _active]. rewrite Z.lxor_spec. apply xorb_false_r.
  - rewrite !isActive_INPUT. cbn [flipped set_active _active]. rewrite Z.lxor_spec. apply xorb_false_r.
Qed.

Lemma setActive_state (cfg : option MMGConfig) (type : DeviceType) (active : bool)
    (d : MMGDevice P) :
  state (setActive cfg type active d)
  = if ignored type active d then d
    else if mismatch type d then toggled type d
    else flipped type (toggled type d).
Proof.
  rewrite setActive_cases.
  destruct (ignored type active d); [reflexivity|].
  destruct (mismatch type d); reflexivity.
Qed.

(** What [setActive] leaves alone. *)
Lemma setActive_keeps (cfg : option MMGConfig) (type : DeviceType) (active : bool)
    (d : MMGDevice P) :
  _capable (state (setActive cfg type active d)) = _capable d
  /\ _thru (state (setActive cfg type active d)) = _thru d
  /\ objectName (state (setActive cfg type active d)) = objectName d
  /\ editable (state (setActive cfg type active d)) = editable d.
Proof.
  rewrite setActive_state.
  destruct (ignored type active d); [repeat split; reflexivity|].
  destruct (mismatch type d); repeat split; destruct type; reflexivity.
Qed.

Lemma setActive_keeps_other (cfg : option MMGConfig) (type : DeviceType) (active : bool)
    (d : MMGDevice P) :
  isActive (other type) (state (setActive cfg type active d)) = isActive (other type) d.
Proof.
  rewrite setActive_state.
  destruct (ignored type active d); [reflexivity|].
  destruct (mismatch type d); [apply isActive_toggled|].
  destruct type; [reflexivity| |].
  - rewrite (isActive_flipped_other TYPE_INPUT) by reflexivity. apply isActive_toggled.
  - rewrite (isActive_flipped_other TYPE_OUTPUT) by reflexivity. apply isActive_toggled.
Qed.

Lemma isCapable_keeps (type : DeviceType) (d d' : MMGDevice P) :
  _capable d' = _capable d -> isCapable type d' = isCapable type d.
Proof. intros Hc. destruct type; simpl; rewrite Hc; reflexivity. Qed.

(** The state of a direction after [setActive]: flipped when the call gets
    past the guard and the port follows, as before otherwise. *)
Lemma isActive_setActive (cfg : option MMGConfig) (type : DeviceType) (active : bool)
    (d : MMGDevice P) :
  is_direction type = true ->
  isActive type (state (setActive cfg type active d))
  = if ignored type active d || mismatch type d
    then isActive type d else negb (isActive type d).
Proof.
  intros Hdir. rewrite setActive_state.
  destruct (ignored type active d); [reflexivity|].
  destruct (mismatch type d); simpl; [apply isActive_toggled|].
  rewrite isActive_flipped by assumption. rewrite isActive_toggled. reflexivity.
Qed.

(** The probe records what it finds. *)
Lemma isCapable_probed (type : DeviceType) (d : MMGDevice P) :
  is_direction type = true ->
  isCapable type (probed d) = found_capable type (port d).
Proof.
  destruct type; [discriminate| |]; intros _;
    unfold isCapable, probed, probed_capable; cbn [_capable];
    [rewrite to_bool_land_1 | rewrite to_bool_land_2];
    destruct (found_capable TYPE_INPUT (port d)), (found_capable TYPE_OUTPUT (port d));
    repeat (rewrite Z.lor_spec || rewrite Z.ldiff_spec);
    rewrite !type_mask_bits by lia; cbn [Z.eqb negb];
    rewrite ?orb_true_r, ?orb_false_r, ?andb_true_r, ?andb_false_r;
    reflexivity.
Qed.

(** [checkCapable], call by call. *)
Lemma checkCapable_run (cfg : option MMGConfig) (d : MMGDevice P) :
  checkCapable cfg d
  = (tt, state (restore_output cfg d),
     probe_calls (port d) ++ trace (restore_input cfg d) ++ trace (restore_output cfg d)).
Proof.
  unfold restore_output, restore_input, state, trace.
  unfold checkCapable, bind, get, put, blog, emit, closePort, openPort,
    isPortOpen, setCapable.
  cbn -[setActive Z.land Z.lor Z.ldiff].
  match goal with
  | |- context [setActive cfg TYPE_INPUT ?b ?dd] => change dd with (probed d)
  end.
  destruct (setActive cfg TYPE_INPUT _ (probed d)) as [[[] d1] t1].
  cbn -[setActive Z.land Z.lor Z.ldiff].
  destruct (setActive cfg TYPE_OUTPUT _ d1) as [[[] d2] t2].
  reflexivity.
Qed.

(** Restoring a direction that the probe left inactive. *)
Lemma isActive_restored (cfg : option MMGConfig) (type : DeviceType) (active : bool)
    (d : MMGDevice P) :
  is_direction type = true ->
  isActive type d = false ->
  isActive type (state (setActive cfg type active d))
  = active && editable d && isCapable type d
    && transport_isOpen type (transport_open type (port d)).
Proof.
  intros Hdir Hinactive. rewrite isActive_setActive by assumption.
  unfold ignored, mismatch, toggled. rewrite Hinactive. cbn [negb set_port port].
  destruct active, (editable d), (isCapable type d),
    (transport_isOpen type (transport_open type (port d))); reflexivity.
Qed.

Lemma isActive_probed (type : DeviceType) (d : MMGDevice P) :
  is_direction type = true -> isActive type (probed d) = false.
Proof. destruct type; [discriminate| |]; reflexivity. Qed.

(** The state of a direction when [checkCapable] returns. *)
Lemma isActive_checkCapable (cfg : option MMGConfig) (type : DeviceType) (d : MMGDevice P) :
  is_direction type = true ->
  isActive type (state (checkCapable cfg d))
  = isActive type d && editable d && found_capable type (port d)
    && opens_again cfg type d.
Proof.
  intros Hdir. rewrite checkCapable_run. unfold state at 1. cbn [fst snd].
  destruct (setActive_keeps cfg TYPE_INPUT (to_bool (Z.land (_active d) 1)) (probed d))
    as (Hcap & _ & _ & Hed).
  fold (restore_input cfg d) in Hcap, Hed.
  destruct type; [discriminate| |].
  - unfold restore_output.
    rewrite (setActive_keeps_other cfg TYPE_OUTPUT). unfold restore_input.
    rewrite isActive_restored by (reflexivity || apply isActive_probed; reflexivity).
    rewrite isCapable_probed by reflexivity. reflexivity.
  - unfold restore_output.
    rewrite isActive_restored.
    + rewrite Hed, (isCapable_keeps TYPE_OUTPUT _ _ Hcap).
      rewrite isCapable_probed by reflexivity. reflexivity.
    + reflexivity.
    + unfold restore_input. rewrite (setActive_keeps_other cfg TYPE_INPUT).
      reflexivity.
Qed.

Lemma isCapable_checkCapable (cfg : option MMGConfig) (type : DeviceType) (d : MMGDevice P) :
  is_direction type = true ->
  isCapable type (state (checkCapable cfg d)) = found_capable type (port d).
Proof.
  intros Hdir. rewrite checkCapable_run. unfold state at 1. cbn [fst snd].
  destruct (setActive_keeps cfg TYPE_INPUT (to_bool (Z.land (_active d) 1)) (probed d))
    as (Hcap1 & _).
  destruct (setActive_keeps cfg TYPE_OUTPUT (to_bool (Z.land (_active d) 2))
              (state (restore_input cfg d))) as (Hcap2 & _).
  fold (restore_output cfg d) in Hcap2. fold (restore_input cfg d) in Hcap1.
  rewrite (isCapable_keeps type _ _ Hcap2), (isCapable_keeps type _ _ Hcap1).
  apply isCapable_probed. exact Hdir.
Qed.

(** The bindings that [setActive] refreshes, for any [DeviceType]. *)
Lemma setActive_refreshed (cfg : option MMGConfig) (type : DeviceType) (active : bool)
    (d : MMGDevice P) :
  refreshed (trace (setActive cfg type active d))
  = if negb (ignored type active d) && negb (mismatch type d) && active
    then first_message_bindings (objectName d) cfg
    else [].
Proof.
  rewrite setActive_cases.
  destruct (ignored type active d); [reflexivity|].
  destruct (mismatch type d); unfold trace; cbn [snd negb andb].
  - unfold toggle_event. destruct (negb (isActive type d)); reflexivity.
  - rewrite refreshed_app. unfold toggle_event.
    destruct (negb (isActive type d)), active; simpl;
      rewrite ?refreshed_map_ERefresh; reflexivity.
Qed.

(** [setActive] calls nothing of the manager. *)
Lemma setActive_device_events (cfg : option MMGConfig) (type : DeviceType) (active : bool)
    (d : MMGDevice P) :
  existsb is_manager_call (trace (setActive cfg type active d)) = false.
Proof.
  rewrite setActive_cases.
  destruct (ignored type active d); [reflexivity|].
  destruct (mismatch type d); unfold trace; cbn [snd].
  - unfold toggle_event. destruct (negb (isActive type d)); reflexivity.
  - rewrite existsb_app. unfold toggle_event.
    destruct (negb (isActive type d)), active; simpl; try reflexivity;
      induction (first_message_bindings (objectName d) cfg); auto.
Qed.

(** [setActive] raises a PortOpenError exactly when it gets past the guard
    and the port does not follow. *)
Lemma setActive_raised (cfg : option MMGConfig) (type : DeviceType) (active : bool)
    (d : MMGDevice P) :
  raised (trace (setActive cfg type active d))
  = negb (ignored type active d) && mismatch type d.
Proof.
  rewrite setActive_cases.
  destruct (ignored type active d); [reflexivity|].
  destruct (mismatch type d); unfold trace; cbn [snd negb andb].
  - unfold toggle_event. destruct (negb (isActive type d)); reflexivity.
  - rewrite raised_app. unfold toggle_event.
    destruct (negb (isActive type d)), active; simpl;
      rewrite ?raised_map_ERefresh; reflexivity.
Qed.

(** [update], call by call. *)
Lemma update_run (cfg : option MMGConfig) (json_obj : QJsonObject) (d : MMGDevice P) :
  update cfg json_obj d = (tt, updated cfg json_obj d, update_events cfg json_obj d).
Proof.
  unfold update_events, updated, update_output, update_input, requested.
  unfold update. cbn [type_mask].
  set (b1 := to_bool (Z.land (to_uint (toInt (at_key json_obj "active"))) 1)).
  set (b2 := to_bool (Z.land (to_uint (toInt (at_key json_obj "active"))) 2)).
  replace (if b1 then setActive cfg TYPE_INPUT true else setActive cfg TYPE_INPUT false)
    with (setActive cfg TYPE_INPUT b1) by (destruct b1; reflexivity).
  replace (if b2 then setActive cfg TYPE_OUTPUT true else setActive cfg TYPE_OUTPUT false)
    with (setActive cfg TYPE_OUTPUT b2) by (destruct b2; reflexivity).
  unfold bind, get, put, state, trace.
  destruct (setActive cfg TYPE_INPUT b1 d) as [[[] d1] t1]. cbn [fst snd].
  destruct (setActive cfg TYPE_OUTPUT b2 d1) as [[[] d2] t2]. cbn [fst snd].
  rewrite !app_nil_r. reflexivity.
Qed.

(** What [update] leaves alone. *)
Lemma updated_keeps (cfg : option MMGConfig) (json_obj : QJsonObject) (d : MMGDevice P) :
  objectName (updated cfg json_obj d) = objectName d
  /\ editable (updated cfg json_obj d) = editable d
  /\ _capable (updated cfg json_obj d) = _capable d
  /\ _thru (updated cfg json_obj d) = toString (at_key json_obj "thru").
Proof.
  unfold updated, update_output, update_input. cbn [set_thru objectName editable _capable _thru].
  destruct (setActive_keeps cfg TYPE_INPUT (requested json_obj TYPE_INPUT) d)
    as (Hc1 & _ & Hn1 & He1).
  destruct (setActive_keeps cfg TYPE_OUTPUT (requested json_obj TYPE_OUTPUT)
              (state (setActive cfg TYPE_INPUT (requested json_obj TYPE_INPUT) d)))
    as (Hc2 & _ & Hn2 & He2).
  rewrite Hn2, He2, Hc2, Hn1, He1, Hc1. repeat split; reflexivity.
Qed.

Lemma first_uses_any_uses (name : string) (binding : MMGBinding) :
  firstMessageUses name binding = true -> anyMessageUses name binding = true.
Proof.
  unfold firstMessageUses, anyMessageUses.
  destruct (messages binding) as [|message rest]; [discriminate|].
  intros Huses. simpl. rewrite Huses. reflexivity.
Qed.

Lemma first_message_bindings_any (name : string) (cfg : option MMGConfig) (b : addr) :
  In b (first_message_bindings name cfg) -> In b (any_message_bindings name cfg).
Proof.
  unfold first_message_bindings, any_message_bindings. intros Hin.
  apply in_map_iff in Hin as (binding & <- & Hin).
  apply filter_In in Hin as [Hin Huses].
  apply in_map, filter_In. split; [exact Hin|].
  apply first_uses_any_uses. exact Huses.
Qed.

(** Every binding that [update] refreshes has a first message naming the
    device. *)
Lemma update_refreshed (cfg : option MMGConfig) (json_obj : QJsonObject)
    (d : MMGDevice P) (b : addr) :
  In b (refreshed (update_events cfg json_obj d)) ->
  In b (first_message_bindings (objectName d) cfg).
Proof.
  unfold update_events, update_output, update_input.
  rewrite refreshed_app, !setActive_refreshed.
  destruct (setActive_keeps cfg TYPE_INPUT (requested json_obj TYPE_INPUT) d)
    as (_ & _ & Hname & _).
  rewrite Hname. intros Hin. apply in_app_or in Hin as [Hin|Hin];
    match type of Hin with
    | In _ (if ?c then _ else _) => destruct c; [exact Hin | destruct Hin]
    end.
Qed.

(** A restoring call whose port does not open raises a PortOpenError. *)
Lemma raised_restore (cfg : option MMGConfig) (type : DeviceType) (d : MMGDevice P) :
  isActive type d = false -> editable d = true -> isCapable type d = true ->
  transport_isOpen type (transport_open type (port d)) = false ->
  raised (trace (setActive cfg type true d)) = true.
Proof.
  intros Hinactive Hed Hcap Hclosed. rewrite setActive_raised.
  unfold ignored, mismatch, toggled. rewrite Hinactive, Hed, Hcap.
  cbn [negb set_port port]. rewrite Hclosed. reflexivity.
Qed.

(** [checkCapable] raises a PortOpenError when a direction that it should
    restore does not open again. *)
Lemma raised_checkCapable (cfg : option MMGConfig) (type : DeviceType) (d : MMGDevice P) :
  is_direction type = true ->
  editable d = true -> isActive type d = true ->
  found_capable type (port d) = true ->
  opens_again cfg type d = false ->
  raised (trace (checkCapable cfg d)) = true.
Proof.
  intros Hdir Hed Hbefore Hfound Hclosed.
  rewrite checkCapable_run. unfold trace at 1. cbn [snd].
  rewrite !raised_app.
  destruct (setActive_keeps cfg TYPE_INPUT (to_bool (Z.land (_active d) 1)) (probed d))
    as (Hcap1 & _ & _ & Hed1).
  fold (restore_input cfg d) in Hcap1, Hed1.
  destruct type; [discriminate| |].
  - assert (Hraised : raised (trace (restore_input cfg d)) = true).
    { unfold restore_input.
      change (to_bool (Z.land (_active d) 1)) with (isActive TYPE_INPUT d).
      rewrite Hbefore. apply raised_restore.
      - reflexivity.
      - exact Hed.
      - rewrite isCapable_probed by reflexivity. exact Hfound.
      - exact Hclosed. }
    rewrite Hraised. apply orb_true_iff. right. reflexivity.
  - assert (Hraised : raised (trace (restore_output cfg d)) = true).
    { unfold restore_output.
      change (to_bool (Z.land (_active d) 2)) with (isActive TYPE_OUTPUT d).
      rewrite Hbefore. apply raised_restore.
      - unfold restore_input. rewrite (setActive_keeps_other cfg TYPE_INPUT). reflexivity.
      - rewrite Hed1. exact Hed.
      - rewrite (isCapable_keeps TYPE_OUTPUT _ _ Hcap1).
        rewrite isCapable_probed by reflexivity. exact Hfound.
      - exact Hclosed. }
    rewrite Hraised, !orb_true_r. reflexivity.
Qed.

End DeviceFacts.

Lemma count_occ_filter_NoDup {A} (key : A -> addr) (p : A -> bool) (l : list A) (b : A) :
  List.NoDup (map key l) -> In b l ->
  count_occ Nat.eq_dec (map key (List.filter p l)) (key b)
  = if p b then 1%nat else 0%nat.
Proof.
  induction l as [|x l IH]; simpl; intros Hnd Hin; [contradiction|].
  apply List.NoDup_cons_iff in Hnd as [Hx Hnd].
  assert (Hfresh : forall q, count_occ Nat.eq_dec (map key (List.filter q l)) (key x) = 0%nat).
  { intros q. apply count_occ_not_In. intros Hq. apply Hx.
    apply in_map_iff in Hq as (y & Hy & Hq). apply filter_In in Hq as [Hq _].
    apply in_map_iff. exists y. auto. }
  destruct Hin as [->|Hin].
  - destruct (p b); simpl.
    + destruct (Nat.eq_dec (key b) (key b)); [|congruence]. rewrite Hfresh. reflexivity.
    + apply Hfresh.
  - assert (Hne : key x <> key b).
    { intros Heq. apply Hx. rewrite Heq. apply in_map. exact Hin. }
    destruct (p x); simpl.
    + destruct (Nat.eq_dec (key x) (key b)); [contradiction|]. apply IH; assumption.
    + apply IH; assumption.
Qed.

Section DeviceTheorems.

Context {P : Type} `{MMGMIDIPort P}.

(** C8. [setActive(x, want)] returns at once, with no call to the transport
    (and no call at all, so nothing is reported) and with the device
    unchanged, when the device is not editable, or [want] is already the
    state of [x], or the device is not capable of [x]; in particular
    [setActive(x, isActive(x))] is such a call. *)
Theorem setActive_returns_immediately (cfg : option MMGConfig) (x : DeviceType)
    (want : bool) (d : MMGDevice P) :
  editable d = false \/ want = isActive x d \/ isCapable x d = false ->
  setActive cfg x want d = (tt, d, [])
  /\ setActive cfg x (isActive x d) d = (tt, d, []).
Proof.
  intros Hguard. rewrite !setActive_cases. unfold ignored.
  split.
  - destruct Hguard as [-> | [-> | ->]]; simpl;
      rewrite ?Bool.eqb_reflx, ?orb_true_r; reflexivity.
  - rewrite Bool.eqb_reflx, orb_true_r. reflexivity.
Qed.

(** C9. A call of [setActive(x, want)] changes at most the bit of [x] in the
    active mask: with that bit cleared the mask is what it was, the other
    direction is as active as before, and the capability mask, the thru
    string, the name and the editable flag are untouched, whatever branch
    the call takes. *)
Theorem setActive_frame (cfg : option MMGConfig) (x : DeviceType) (want : bool)
    (d : MMGDevice P) :
  Z.ldiff (_active (state (setActive cfg x want d))) (type_mask x)
  = Z.ldiff (_active d) (type_mask x)
  /\ isActive (other x) (state (setActive cfg x want d)) = isActive (other x) d
  /\ _capable (state (setActive cfg x want d)) = _capable d
  /\ _thru (state (setActive cfg x want d)) = _thru d
  /\ objectName (state (setActive cfg x want d)) = objectName d
  /\ editable (state (setActive cfg x want d)) = editable d.
Proof.
  rewrite setActive_cases.
  destruct (ignored x want d); [repeat split; reflexivity|].
  destruct (mismatch x d); unfold state; cbn [fst snd].
  - repeat split; destruct x; reflexivity.
  - split; [|split].
    + destruct x; try reflexivity; cbn [flipped toggled set_active set_port _active];
        [change (Z.lxor (_active d) 1) with (Z.lxor (_active d) (type_mask TYPE_INPUT))
        |change (Z.lxor (_active d) 2) with (Z.lxor (_active d) (type_mask TYPE_OUTPUT))];
        apply Z.bits_inj'; intros n Hn;
        rewrite !Z.ldiff_spec, Z.lxor_spec, !type_mask_bits by exact Hn;
        destruct (Z.testbit (_active d) n), (n =? _); reflexivity.
    + destruct x; [reflexivity| |].
      * rewrite (isActive_flipped_other TYPE_INPUT) by reflexivity. apply isActive_toggled.
      * rewrite (isActive_flipped_other TYPE_OUTPUT) by reflexivity. apply isActive_toggled.
    + repeat split; destruct x; reflexivity.
Qed.

(** C1, amended. On an editable device that is capable of the direction [x]
    (input or output) and whose port for [x] is open whenever [x] is
    already active: if [setActive(x, true)] returns without raising a
    PortOpenError then [isActive(x)] holds and the transport reports the
    port of [x] open. And for every device, direction and [want]: when
    [setActive(x, want)] raises a PortOpenError the active mask is what it
    was before the call and no binding is refreshed. *)
Theorem setActive_true_or_PortOpenError (cfg : option MMGConfig) (x : DeviceType)
    (want : bool) (d : MMGDevice P) :
  (is_direction x = true ->
   editable d = true ->
   isCapable x d = true ->
   (isActive x d = true -> transport_isOpen x (port d) = true) ->
   raised (trace (setActive cfg x true d)) = false ->
   isActive x (state (setActive cfg x true d)) = true
   /\ transport_isOpen x (port (state (setActive cfg x true d))) = true)
  /\ (raised (trace (setActive cfg x want d)) = true ->
      _active (state (setActive cfg x want d)) = _active d
      /\ refreshed (trace (setActive cfg x want d)) = []).
Proof.
  split.
  - intros Hdir Hed Hcap Hopen. rewrite setActive_cases. unfold ignored.
    rewrite Hed, Hcap. simpl.
    destruct (isActive x d) eqn:Hact; simpl.
    + intros _. split; [exact Hact | auto].
    + assert (Hport_eq : port (toggled x d) = transport_open x (port d)).
      { unfold toggled. rewrite Hact. reflexivity. }
      unfold mismatch. rewrite Hport_eq, Hact.
      destruct (transport_isOpen x (transport_open x (port d))) eqn:Hport;
        cbn [Bool.eqb].
      * intros _. unfold state. cbn [fst snd]. split.
        -- rewrite isActive_flipped by assumption. rewrite isActive_toggled, Hact. reflexivity.
        -- destruct x; [discriminate| |]; cbn [flipped set_active port];
             rewrite Hport_eq; exact Hport.
      * unfold trace. cbn [snd]. unfold toggle_event. rewrite Hact. discriminate.
  - rewrite setActive_cases.
    destruct (ignored x want d); [discriminate|].
    destruct (mismatch x d); unfold trace, state; cbn [fst snd].
    + intros _. split; [destruct x; reflexivity|].
      unfold toggle_event. destruct (negb (isActive x d)); reflexivity.
    + rewrite raised_app. unfold toggle_event.
      destruct (negb (isActive x d)), want; simpl;
        rewrite ?raised_map_ERefresh; discriminate.
Qed.

(** C2. For a direction [x] (input or output), the bindings that a call of
    [setActive(x, want)] refreshes are: when the call takes [x] from
    inactive to active, the bindings whose first message names this device,
    in visiting order; otherwise (deactivation, failure, no-op) none. Hence
    when no two bindings of the tree share an address, a binding of the
    tree is refreshed exactly once if the call activates [x] and its first
    message names this device, and not at all otherwise, whatever its later
    messages name. *)
Theorem setActive_refreshes_first_message_bindings (cfg : option MMGConfig)
    (x : DeviceType) (want : bool) (d : MMGDevice P) :
  is_direction x = true ->
  refreshed (trace (setActive cfg x want d))
  = (if negb (isActive x d) && isActive x (state (setActive cfg x want d))
     then first_message_bindings (objectName d) cfg
     else [])
  /\ (List.NoDup (map b_addr (all_bindings cfg)) ->
      forall binding, In binding (all_bindings cfg) ->
      count_occ Nat.eq_dec (refreshed (trace (setActive cfg x want d))) (b_addr binding)
      = if negb (isActive x d) && isActive x (state (setActive cfg x want d))
           && firstMessageUses (objectName d) binding
        then 1%nat else 0%nat).
Proof.
  intros Hdir.
  assert (Hmain : refreshed (trace (setActive cfg x want d))
    = (if negb (isActive x d) && isActive x (state (setActive cfg x want d))
       then first_message_bindings (objectName d) cfg else [])).
  { rewrite setActive_cases.
    destruct (ignored x want d) eqn:Hig.
    { unfold state, trace. cbn [fst snd refreshed].
      destruct (isActive x d); reflexivity. }
    unfold ignored in Hig.
    apply orb_false_iff in Hig as [Hig _]. apply orb_false_iff in Hig as [_ Hsame].
    destruct (mismatch x d); unfold trace, state; cbn [fst snd].
    - rewrite isActive_toggled. unfold toggle_event.
      destruct (isActive x d); reflexivity.
    - rewrite isActive_flipped by assumption. rewrite isActive_toggled.
      rewrite refreshed_app. unfold toggle_event.
      destruct (isActive x d), want; simpl in *; try discriminate;
        rewrite ?refreshed_map_ERefresh; reflexivity. }
  split; [exact Hmain|].
  intros Hnd binding Hin. rewrite Hmain.
  destruct (negb (isActive x d) && isActive x (state (setActive cfg x want d))); simpl.
  - unfold first_message_bindings. apply count_occ_filter_NoDup; assumption.
  - reflexivity.
Qed.

(** C4, amended. The probe of [checkCapable] makes its calls in this order:
    close input, close output, open input and record whether it is open as
    the input capability, open output (input has not been closed again) and
    record the output capability, then close input and close output; the two
    restoring [setActive] calls follow. The output capability is read with
    both ports asked to be open. *)
Theorem checkCapable_probe_order (cfg : option MMGConfig) (d : MMGDevice P) :
  trace (checkCapable cfg d)
  = probe_calls (port d) ++ trace (restore_input cfg d) ++ trace (restore_output cfg d)
  /\ List.filter is_transport (probe_calls (port d)) = probe_order
  /\ isCapable TYPE_INPUT (state (checkCapable cfg d))
     = transport_isOpen TYPE_INPUT
         (transport_open TYPE_INPUT
            (transport_close TYPE_OUTPUT (transport_close TYPE_INPUT (port d))))
  /\ isCapable TYPE_OUTPUT (state (checkCapable cfg d))
     = transport_isOpen TYPE_OUTPUT
         (transport_open TYPE_OUTPUT
            (transport_open TYPE_INPUT
               (transport_close TYPE_OUTPUT (transport_close TYPE_INPUT (port d))))).
Proof.
  split; [|split; [|split]].
  - rewrite checkCapable_run. reflexivity.
  - reflexivity.
  - apply (isCapable_checkCapable cfg TYPE_INPUT). reflexivity.
  - apply (isCapable_checkCapable cfg TYPE_OUTPUT). reflexivity.
Qed.

(** C6, amended. After [checkCapable()] returns, for a direction [x] (input
    or output): if [x] was inactive before it is inactive; if [x] was active
    before and the probe finds it non-capable it is inactive; on a device
    that is not editable it is inactive; and on an editable device, if [x]
    was active before and the probe finds it capable, then [x] is active
    again exactly when the transport reports its port open after the
    restoring [setActive] call has asked to open it, and otherwise that
    call raises a PortOpenError and [x] stays inactive. The capability of
    [x] after the call is what the probe found. *)
Theorem checkCapable_restores (cfg : option MMGConfig) (x : DeviceType) (d : MMGDevice P) :
  is_direction x = true ->
  (isActive x d = false -> isActive x (state (checkCapable cfg d)) = false)
  /\ (isActive x d = true -> found_capable x (port d) = false ->
      isActive x (state (checkCapable cfg d)) = false)
  /\ (editable d = false -> isActive x (state (checkCapable cfg d)) = false)
  /\ (editable d = true -> isActive x d = true ->
      found_capable x (port d) = true ->
      isActive x (state (checkCapable cfg d))
      = transport_isOpen x (transport_open x (restoring_port cfg x d)))
  /\ (editable d = true -> isActive x d = true ->
      found_capable x (port d) = true ->
      transport_isOpen x (transport_open x (restoring_port cfg x d)) = true ->
      isActive x (state (checkCapable cfg d)) = true)
  /\ (editable d = true -> isActive x d = true ->
      found_capable x (port d) = true ->
      transport_isOpen x (transport_open x (restoring_port cfg x d)) = false ->
      raised (trace (checkCapable cfg d)) = true
      /\ isActive x (state (checkCapable cfg d)) = false)
  /\ isCapable x (state (checkCapable cfg d)) = found_capable x (port d).
Proof.
  intros Hdir.
  pose proof (isActive_checkCapable cfg x d Hdir) as Hq. unfold opens_again in Hq.
  split; [|split; [|split; [|split; [|split; [|split]]]]].
  - intros Hbefore. rewrite Hq, Hbefore. reflexivity.
  - intros _ Hfound. rewrite Hq, Hfound.
    destruct (isActive x d), (editable d); reflexivity.
  - intros Hed. rewrite Hq, Hed. destruct (isActive x d); reflexivity.
  - intros Hed Hbefore Hfound. rewrite Hq, Hed, Hbefore, Hfound. reflexivity.
  - intros Hed Hbefore Hfound Hopen. rewrite Hq, Hed, Hbefore, Hfound, Hopen.
    reflexivity.
  - intros Hed Hbefore Hfound Hclosed. split.
    + apply raised_checkCapable with (type := x); assumption.
    + rewrite Hq, Hed, Hbefore, Hfound, Hclosed. reflexivity.
  - apply isCapable_checkCapable. exact Hdir.
Qed.

End DeviceTheorems.

(** ** Facts about MMGDeviceManager *)

Section ManagerFacts.

Context {P : Type} `{MMGMIDIPort P}.

Lemma refreshBindingsForDevice_run (devName : string) (w : World P) :
  refreshBindingsForDevice devName w
  = (tt, w, map ERefresh (any_message_bindings devName (config w))).
Proof.
  unfold refreshBindingsForDevice, any_message_bindings, bind, get.
  rewrite map_map. destruct (config w) as [cfg|]; simpl; [|reflexivity].
  rewrite <- flat_map_filter_map, <- flat_map_concat.
  rewrite (for_each_silent
             (flat_map (fun binding =>
                if anyMessageUses devName binding then [ERefresh (b_addr binding)] else []))).
  - reflexivity.
  - intros collection. apply for_each_silent. intros binding.
    destruct (anyMessageUses devName binding); reflexivity.
Qed.

Lemma updateDeviceReferences_run (devName : string) (newDevice : addr) (w : World P) :
  updateDeviceReferences devName newDevice w
  = (tt,
     match config w with
     | Some cfg => set_config (Some (repoint_config w devName newDevice cfg)) w
     | None => w
     end,
     repoint_events w devName newDevice (config w)).
Proof.
  unfold updateDeviceReferences, repoint_events, repoint_config, bind, get.
  destruct (config w) as [cfg|]; [|reflexivity].
  unfold all_bindings. rewrite <- flat_map_concat.
  rewrite (for_each_mut_pure
             (map (repoint_binding w devName newDevice))
             (flat_map (fun binding =>
                flat_map (fun message =>
                  if needsRepoint w devName message
                  then [ESetDevice (m_addr message) newDevice] else [])
                  (messages binding)))).
  - unfold put. simpl. rewrite app_nil_r. reflexivity.
  - intros collection. apply for_each_mut_pure. intros binding.
    rewrite (for_each_mut_pure
               (repoint_message w devName newDevice)
               (fun message =>
                  if needsRepoint w devName message
                  then [ESetDevice (m_addr message) newDevice] else [])).
    + unfold ret. simpl. rewrite app_nil_r. reflexivity.
    + intros message. unfold repoint_message, setDevice, ret.
      destruct (needsRepoint w devName message); reflexivity.
Qed.

(** Repointing changes no name and no binding address, so it changes no
    answer of the refresh tests. *)
Lemma any_message_bindings_repoint (w : World P) (devName name : string)
    (newDevice : addr) (cfg : MMGConfig) :
  any_message_bindings name (Some (repoint_config w devName newDevice cfg))
  = any_message_bindings name (Some cfg).
Proof.
  unfold any_message_bindings, all_bindings, repoint_config. cbn [collections].
  rewrite <- concat_map.
  induction (concat (collections cfg)) as [|binding l IH]; [reflexivity|].
  cbn [map List.filter].
  assert (Hsame : anyMessageUses name (repoint_binding w devName newDevice binding)
                  = anyMessageUses name binding).
  { unfold anyMessageUses, repoint_binding. cbn [messages].
    induction (messages binding) as [|message ms IHm]; [reflexivity|].
    cbn [map existsb]. rewrite IHm. f_equal.
    unfold repoint_message. destruct (needsRepoint w devName message); reflexivity. }
  rewrite Hsame. destruct (anyMessageUses name binding); cbn [map]; rewrite IH; reflexivity.
Qed.

(** What [find] answers. *)
Lemma find_Some (name : string) (w : World P) (a : addr) :
  find name w = Some a ->
  In a (_list w) /\ exists d, heap w !! a = Some d /\ objectName d = name.
Proof.
  unfold find. intros Hfind. apply find_some in Hfind as [Hin Hnamed].
  split; [exact Hin|]. unfold named in Hnamed.
  destruct (heap w !! a) as [d|]; [|discriminate].
  exists d. split; [reflexivity|]. apply String.eqb_eq. exact Hnamed.
Qed.

(** [add] for a record whose name is registered. *)
Lemma add_existing_run (json_obj : QJsonObject) (w : World P) (a : addr) (d : MMGDevice P) :
  find (toString (at_key json_obj "name")) w = Some a ->
  heap w !! a = Some d ->
  add json_obj w
  = (a,
     set_heap (<[a := updated (config w) json_obj d]> (heap w)) w,
     update_events (config w) json_obj d
     ++ map ERefresh (any_message_bindings (toString (at_key json_obj "name")) (config w))).
Proof.
  intros Hfind Hd. unfold add, bind, get. rewrite Hfind.
  unfold on_device. rewrite Hd, update_run.
  rewrite refreshBindingsForDevice_run. unfold ret. cbn [config set_heap].
  rewrite app_nil_r. reflexivity.
Qed.

(** [add] for a record whose name is not registered. *)
Lemma add_new_run (json_obj : QJsonObject) (w : World P) :
  find (toString (at_key json_obj "name")) w = None ->
  add json_obj w
  = (fresh (dom (heap w)),
     match config w with
     | Some cfg =>
         set_config
           (Some (repoint_config (registered json_obj w)
                    (toString (at_key json_obj "name")) (fresh (dom (heap w))) cfg))
           (registered json_obj w)
     | None => registered json_obj w
     end,
     removal_events w
     ++ ENew (fresh (dom (heap w)))
        :: update_events (config w) json_obj (base_object json_obj)
     ++ EManagerAdd (fresh (dom (heap w)))
        :: repoint_events (registered json_obj w)
             (toString (at_key json_obj "name")) (fresh (dom (heap w))) (config w)
     ++ map ERefresh (any_message_bindings (toString (at_key json_obj "name")) (config w))).
Proof.
  intros Hfind. unfold add, bind, get. rewrite Hfind.
  assert (Hdummy :
    match find (mmgtr "Device.Dummy") w with
    | Some dummy => remove dummy
    | None => ret tt
    end w = (tt, without_dummy w, removal_events w)).
  { unfold without_dummy, removal_events.
    destruct (find (mmgtr "Device.Dummy") w); reflexivity. }
  rewrite Hdummy.
  assert (Hsame : heap (without_dummy w) = heap w /\ config (without_dummy w) = config w).
  { unfold without_dummy. destruct (find (mmgtr "Device.Dummy") w); split; reflexivity. }
  destruct Hsame as [Hheap Hconfig].
  unfold new_MMGDevice. rewrite update_run, Hheap, Hconfig.
  unfold MMGManager_add.
  assert (Hreg :
    set_list (_list (set_heap
                       (<[fresh (dom (heap w)) :=
                            updated (config w) json_obj (base_object json_obj)]> (heap w))
                       (without_dummy w)) ++ [fresh (dom (heap w))])
      (set_heap
         (<[fresh (dom (heap w)) :=
              updated (config w) json_obj (base_object json_obj)]> (heap w))
         (without_dummy w))
    = registered json_obj w).
  { unfold registered, set_list, set_heap. cbn [heap _list config].
    rewrite Hconfig. reflexivity. }
  rewrite Hreg.
  rewrite updateDeviceReferences_run, refreshBindingsForDevice_run.
  unfold ret. cbn [fst snd].
  replace (config (registered json_obj w)) with (config w) by reflexivity.
  destruct (config w) as [cfg|] eqn:Hcfg.
  - cbn [config set_config]. rewrite any_message_bindings_repoint.
    rewrite app_nil_r. cbn [app]. rewrite <- ?app_assoc. reflexivity.
  - replace (config (registered json_obj w)) with (config w) by reflexivity.
    rewrite Hcfg, app_nil_r. cbn [app]. rewrite <- ?app_assoc. reflexivity.
Qed.

End ManagerFacts.

(** ** Facts about update and the registry *)

Section UpdateFacts.

Context {P : Type} `{MMGMIDIPort P}.

(** On an editable device that is capable of a direction, [setActive]
    reaches the state asked for unless it raises a PortOpenError. *)
Lemma setActive_reaches (cfg : option MMGConfig) (x : DeviceType) (want : bool)
    (d : MMGDevice P) :
  is_direction x = true -> editable d = true -> isCapable x d = true ->
  raised (trace (setActive cfg x want d)) = false ->
  isActive x (state (setActive cfg x want d)) = want.
Proof.
  intros Hdir Hed Hcap. rewrite setActive_raised, isActive_setActive by assumption.
  unfold ignored. rewrite Hed, Hcap. cbn [negb orb].
  rewrite !orb_false_r.
  destruct (isActive x d), want, (mismatch x d); cbn; congruence.
Qed.

Lemma isActive_set_thru (x : DeviceType) (t : string) (d : MMGDevice P) :
  isActive x (set_thru t d) = isActive x d.
Proof. destruct x; reflexivity. Qed.

(** After [update] without a PortOpenError, a direction of which the
    editable device is capable is as the record asks. *)
Lemma isActive_updated (cfg : option MMGConfig) (json_obj : QJsonObject)
    (x : DeviceType) (d : MMGDevice P) :
  is_direction x = true -> editable d = true -> isCapable x d = true ->
  raised (update_events cfg json_obj d) = false ->
  isActive x (updated cfg json_obj d) = requested json_obj x.
Proof.
  intros Hdir Hed Hcap Hraised. unfold update_events in Hraised.
  rewrite raised_app in Hraised. apply orb_false_iff in Hraised as [Hr1 Hr2].
  unfold updated. rewrite isActive_set_thru.
  destruct (setActive_keeps cfg TYPE_INPUT (requested json_obj TYPE_INPUT) d)
    as (Hc1 & _ & _ & He1).
  destruct x; [discriminate| |].
  - unfold update_output. rewrite (setActive_keeps_other cfg TYPE_OUTPUT).
    apply setActive_reaches; assumption.
  - unfold update_output in *. unfold update_input in *.
    apply setActive_reaches; try assumption; try reflexivity.
    + rewrite He1. exact Hed.
    + rewrite (isCapable_keeps TYPE_OUTPUT _ _ Hc1). exact Hcap.
Qed.

Lemma small_mask (a : Z) : 0 <= a <= 3 -> a = 0 \/ a = 1 \/ a = 2 \/ a = 3.
Proof. lia. Qed.

(** [setActive] and [update] keep the active mask within its two bits. *)
Lemma setActive_range (cfg : option MMGConfig) (x : DeviceType) (want : bool)
    (d : MMGDevice P) :
  0 <= _active d <= 3 -> 0 <= _active (state (setActive cfg x want d)) <= 3.
Proof.
  intros Hrange. rewrite setActive_state.
  destruct (ignored x want d); [exact Hrange|].
  destruct (mismatch x d); [destruct x; exact Hrange|].
  destruct x; cbn [flipped toggled set_active set_port _active]; [exact Hrange| |];
    destruct (small_mask _ Hrange) as [-> | [-> | [-> | ->]]];
    split; apply Z.leb_le; reflexivity.
Qed.

Lemma updated_range (cfg : option MMGConfig) (json_obj : QJsonObject) (d : MMGDevice P) :
  0 <= _active d <= 3 -> 0 <= _active (updated cfg json_obj d) <= 3.
Proof.
  intros Hrange. unfold updated, update_output, update_input. cbn [set_thru _active].
  apply setActive_range, setActive_range, Hrange.
Qed.

(** Two masks within the two bits that agree on both bits are equal. *)
Lemma mask_eq (a r : Z) :
  0 <= a <= 3 -> 0 <= r <= 3 ->
  Z.testbit a 0 = Z.testbit r 0 -> Z.testbit a 1 = Z.testbit r 1 -> a = r.
Proof.
  intros Ha Hr.
  destruct (small_mask _ Ha) as [-> | [-> | [-> | ->]]];
    destruct (small_mask _ Hr) as [-> | [-> | [-> | ->]]];
    vm_compute; congruence.
Qed.

(** The fields of the serialized device. *)
Lemma json_fields (d : MMGDevice P) :
  json d ∅ !! "name" = Some (JString (objectName d))
  /\ json d ∅ !! "active" = Some (JNumber (to_int (_active d)))
  /\ json d ∅ !! "thru" = (if isEmpty (_thru d) then None else Some (JString (_thru d))).
Proof.
  unfold json. destruct (isEmpty (_thru d)); cbn [negb]; repeat split;
    repeat (rewrite lookup_insert_ne by discriminate);
    rewrite ?lookup_insert_eq, ?lookup_empty; reflexivity.
Qed.

Lemma fresh_is_new (w : World P) : heap w !! fresh (dom (heap w)) = None.
Proof. apply not_elem_of_dom, is_fresh. Qed.

(** The device that [add] returns, in both branches. *)
Lemma add_returns (json_obj : QJsonObject) (w : World P) :
  exists d : MMGDevice P,
    heap (state (add json_obj w)) !! result (add json_obj w)
    = Some (updated (config w) json_obj d)
    /\ objectName d = toString (at_key json_obj "name")
    /\ (0 <= _active d <= 3
        \/ exists a, heap w !! a = Some d)
    /\ (raised (trace (add json_obj w)) = false ->
        raised (update_events (config w) json_obj d) = false).
Proof.
  destruct (find (toString (at_key json_obj "name")) w) as [a|] eqn:Hfind.
  - destruct (find_Some _ _ _ Hfind) as (_ & d & Hd & Hname).
    exists d. rewrite (add_existing_run json_obj w a d Hfind Hd).
    unfold result, state, trace. cbn [fst snd heap set_heap].
    rewrite lookup_insert_eq. repeat split; eauto.
    rewrite raised_app. intros Hr. apply orb_false_iff in Hr as [Hr _]. exact Hr.
  - exists (base_object json_obj). rewrite (add_new_run json_obj w Hfind).
    unfold result, state, trace. cbn [fst snd].
    repeat split.
    + match goal with
      | |- heap ?w' !! _ = _ =>
          replace (heap w') with (heap (registered json_obj w))
            by (destruct (config w); reflexivity)
      end.
      apply lookup_insert_eq.
    + left. cbn. lia.
    + rewrite raised_app. intros Hr. apply orb_false_iff in Hr as [_ Hr].
      change (raised (ENew ?a :: ?t)) with (raised t) in Hr.
      rewrite raised_app in Hr. apply orb_false_iff in Hr as [Hr _]. exact Hr.
Qed.

End UpdateFacts.

Section ManagerTheorems.

Context {P : Type} `{MMGMIDIPort P}.

(** C10. Without a configuration ([config()] is null) the cascades do
    nothing and nothing fails: [setActive] takes the same three branches,
    still toggles the port and flips the bit when the port follows, and
    refreshes no binding; [updateDeviceReferences] and
    [refreshBindingsForDevice] return with the world as it was and without
    a call. *)
Theorem null_config_is_no_op (x : DeviceType) (want : bool) (d : MMGDevice P)
    (devName : string) (newDevice : addr) (w : World P) :
  config w = None ->
  setActive (config w) x want d
  = (if ignored x want d then (tt, d, [])
     else if mismatch x d
     then (tt, toggled x d,
           [toggle_event x d; EIsPortOpen x; EPromptUser "PortOpenError"])
     else (tt, flipped x (toggled x d), [toggle_event x d; EIsPortOpen x]))
  /\ refreshed (trace (setActive (config w) x want d)) = []
  /\ updateDeviceReferences devName newDevice w = (tt, w, [])
  /\ refreshBindingsForDevice devName w = (tt, w, []).
Proof.
  intros Hnull. split; [|split; [|split]].
  - rewrite setActive_cases, Hnull.
    destruct (ignored x want d); [reflexivity|].
    destruct (mismatch x d); [reflexivity|].
    destruct want; reflexivity.
  - rewrite setActive_refreshed, Hnull.
    destruct (negb (ignored x want d) && negb (mismatch x d) && want); reflexivity.
  - rewrite updateDeviceReferences_run, Hnull. reflexivity.
  - rewrite refreshBindingsForDevice_run, Hnull. reflexivity.
Qed.

(** C7. For a record whose name is registered, [add] runs [update] of the
    record on that device in place, then refreshes the bindings that have
    some message naming the record's name (the bindings refreshed during
    the call are exactly these), and returns the address of the existing
    device; the registry list and every message of the tree are as before,
    and no device is created, registered or removed and no message
    repointed. *)
Theorem add_existing_updates_in_place (json_obj : QJsonObject) (w : World P) (a : addr) :
  find (toString (at_key json_obj "name")) w = Some a ->
  exists d : MMGDevice P,
    heap w !! a = Some d
    /\ objectName d = toString (at_key json_obj "name")
    /\ result (add json_obj w) = a
    /\ heap (state (add json_obj w))
       = <[a := state (update (config w) json_obj d)]> (heap w)
    /\ _list (state (add json_obj w)) = _list w
    /\ config (state (add json_obj w)) = config w
    /\ trace (add json_obj w)
       = trace (update (config w) json_obj d)
         ++ map ERefresh
              (any_message_bindings (toString (at_key json_obj "name")) (config w))
    /\ (forall b : addr,
          In b (refreshed (trace (add json_obj w)))
          <-> In b (any_message_bindings (toString (at_key json_obj "name")) (config w)))
    /\ existsb is_manager_call (trace (add json_obj w)) = false.
Proof.
  intros Hfind. destruct (find_Some _ _ _ Hfind) as (_ & d & Hd & Hname).
  exists d. rewrite (add_existing_run json_obj w a d Hfind Hd), update_run.
  unfold result, state, trace. cbn [fst snd heap _list config set_heap].
  repeat split; try assumption.
  - rewrite refreshed_app, refreshed_map_ERefresh. intros Hin.
    apply in_app_or in Hin as [Hin|Hin]; [|exact Hin].
    apply first_message_bindings_any. rewrite <- Hname.
    apply (update_refreshed (config w) json_obj d). exact Hin.
  - rewrite refreshed_app, refreshed_map_ERefresh. intros Hin.
    apply in_or_app. right. exact Hin.
  - rewrite existsb_app. unfold update_events. rewrite existsb_app.
    unfold update_output, update_input. rewrite !setActive_device_events.
    induction (any_message_bindings _ _); auto.
Qed.

(** C3, amended. For a record whose name is not registered, [add] removes
    the placeholder from the registry if [find] has one, then builds a new
    object under a new address (the constructor runs [update] of the
    record on it) and registers it under the record's name after the
    devices already there, then points to it every message of the tree
    whose back-reference is null or refers to a device of that name, then
    refreshes the bindings that have some message naming that name, and
    returns the new address. The calls come in that order: removal, the
    constructor's calls, registration, the [setDevice] calls, the calls of
    the broad refresh. In particular, from a registry that holds only the
    placeholder the registry ends with exactly one device, named as the
    record says. *)
Theorem add_new_device (json_obj : QJsonObject) (w : World P) :
  find (toString (at_key json_obj "name")) w = None ->
  heap w !! fresh (dom (heap w)) = None
  /\ result (add json_obj w) = fresh (dom (heap w))
  /\ heap (state (add json_obj w))
     = <[fresh (dom (heap w)) :=
           state (update (config w) json_obj (base_object json_obj))]> (heap w)
  /\ objectName (state (update (config w) json_obj (base_object json_obj)))
     = toString (at_key json_obj "name")
  /\ _list (state (add json_obj w))
     = match find (mmgtr "Device.Dummy") w with
       | Some dummy => removeOne dummy (_list w)
       | None => _list w
       end ++ [fresh (dom (heap w))]
  /\ config (state (add json_obj w))
     = option_map
         (repoint_config (registered json_obj w)
            (toString (at_key json_obj "name")) (fresh (dom (heap w))))
         (config w)
  /\ (forall message : MMGMessage,
        needsRepoint (registered json_obj w) (toString (at_key json_obj "name")) message
        = match device message with
          | None => true
          | Some a =>
              named w a (toString (at_key json_obj "name"))
              || Nat.eqb a (fresh (dom (heap w)))
          end)
  /\ trace (add json_obj w)
     = removal_events w
       ++ ENew (fresh (dom (heap w)))
          :: trace (update (config w) json_obj (base_object json_obj))
       ++ EManagerAdd (fresh (dom (heap w)))
          :: repoint_events (registered json_obj w)
               (toString (at_key json_obj "name")) (fresh (dom (heap w))) (config w)
       ++ map ERefresh
            (any_message_bindings (toString (at_key json_obj "name")) (config w))
  /\ (forall dummy : addr,
        _list w = [dummy] ->
        named w dummy (mmgtr "Device.Dummy") = true ->
        _list (state (add json_obj w)) = [fresh (dom (heap w))]
        /\ device_names (state (add json_obj w)) = [toString (at_key json_obj "name")]).
Proof.
  intros Hfind. rewrite (add_new_run json_obj w Hfind), update_run.
  unfold result, state, trace. cbn [fst snd].
  destruct (updated_keeps (config w) json_obj (base_object json_obj)) as (Hname & _).
  cbn [base_object objectName] in Hname.
  assert (Hheap : forall w' : World P,
            w' = match config w with
                 | Some cfg =>
                     set_config
                       (Some (repoint_config (registered json_obj w)
                                (toString (at_key json_obj "name"))
                                (fresh (dom (heap w))) cfg))
                       (registered json_obj w)
                 | None => registered json_obj w
                 end ->
            heap w' = heap (registered json_obj w)
            /\ _list w' = _list (registered json_obj w)
            /\ config w'
               = option_map
                   (repoint_config (registered json_obj w)
                      (toString (at_key json_obj "name")) (fresh (dom (heap w))))
                   (config w)).
  { intros w' ->. destruct (config w) as [cfg|] eqn:Hcfg; repeat split; try reflexivity.
    cbn [option_map]. unfold registered. cbn [config]. exact Hcfg. }
  destruct (Hheap _ eq_refl) as (Hh & Hl & Hc). clear Hheap.
  split; [apply fresh_is_new|].
  split; [reflexivity|].
  split; [rewrite Hh; reflexivity|].
  split; [exact Hname|].
  split.
  { rewrite Hl. unfold registered, without_dummy. cbn [_list].
    destruct (find (mmgtr "Device.Dummy") w); reflexivity. }
  split; [exact Hc|].
  split.
  { intros message. unfold needsRepoint. destruct (device message) as [a|]; [|reflexivity].
    unfold named, registered. cbn [heap].
    destruct (Nat.eqb_spec a (fresh (dom (heap w)))) as [->|Hne].
    - rewrite lookup_insert_eq, Hname, String.eqb_refl, orb_true_r. reflexivity.
    - rewrite lookup_insert_ne by (intros Heq; apply Hne; symmetry; exact Heq).
      rewrite orb_false_r. reflexivity. }
  split; [reflexivity|].
  intros dummy Honly Hdummy.
  assert (Hfound : find (mmgtr "Device.Dummy") w = Some dummy).
  { unfold find. rewrite Honly. cbn [List.find]. rewrite Hdummy. reflexivity. }
  assert (Hlist : _list (registered json_obj w) = [fresh (dom (heap w))]).
  { unfold registered, without_dummy. cbn [_list]. rewrite Hfound, Honly.
    cbn [set_list _list removeOne]. rewrite Nat.eqb_refl. reflexivity. }
  split.
  - rewrite Hl. exact Hlist.
  - unfold device_names. rewrite Hl, Hh, Hlist. cbn [flat_map].
    unfold registered. cbn [heap]. rewrite lookup_insert_eq, Hname. reflexivity.
Qed.

(** C5, amended. Serializing the device that [add] returns gives the name
    of the record; a thru field exactly when the thru string of the record
    is not empty, holding that string; and the active mask of the device as
    an integer. Each direction of which the device is editable and capable
    is then as the record asks, unless a PortOpenError was raised; so the
    serialized mask is the record's own when the record asks for nothing
    beyond the two direction bits, the masks of the registered devices
    have nothing beyond them, the device is editable and capable of both
    directions and no PortOpenError was raised. *)
Theorem add_then_json (json_obj : QJsonObject) (w : World P) :
  exists d' : MMGDevice P,
    heap (state (add json_obj w)) !! result (add json_obj w) = Some d'
    /\ json d' ∅ !! "name" = Some (JString (toString (at_key json_obj "name")))
    /\ json d' ∅ !! "thru"
       = (if isEmpty (toString (at_key json_obj "thru")) then None
          else Some (JString (toString (at_key json_obj "thru"))))
    /\ (is_Some (json d' ∅ !! "thru") <-> toString (at_key json_obj "thru") <> EmptyString)
    /\ json d' ∅ !! "active" = Some (JNumber (to_int (_active d')))
    /\ (forall x : DeviceType,
          is_direction x = true -> editable d' = true -> isCapable x d' = true ->
          raised (trace (add json_obj w)) = false ->
          isActive x d' = requested json_obj x)
    /\ (0 <= toInt (at_key json_obj "active") <= 3 ->
        (forall a d, heap w !! a = Some d -> 0 <= _active d <= 3) ->
        editable d' = true ->
        isCapable TYPE_INPUT d' = true -> isCapable TYPE_OUTPUT d' = true ->
        raised (trace (add json_obj w)) = false ->
        json d' ∅ !! "active" = Some (JNumber (toInt (at_key json_obj "active")))).
Proof.
  destruct (add_returns json_obj w) as (d & Hd & Hname & Hold & Hraised).
  exists (updated (config w) json_obj d).
  destruct (updated_keeps (config w) json_obj d) as (Hn & He & Hc & Ht).
  destruct (json_fields (updated (config w) json_obj d)) as (Jn & Ja & Jt).
  assert (Hbits : forall x : DeviceType,
            is_direction x = true ->
            editable (updated (config w) json_obj d) = true ->
            isCapable x (updated (config w) json_obj d) = true ->
            raised (trace (add json_obj w)) = false ->
            isActive x (updated (config w) json_obj d) = requested json_obj x).
  { intros x Hdir Hed Hcap Hr. apply isActive_updated; auto.
    - rewrite <- He. exact Hed.
    - rewrite <- (isCapable_keeps x _ _ Hc). exact Hcap. }
  split; [exact Hd|].
  split; [rewrite Jn, Hn, Hname; reflexivity|].
  split; [rewrite Jt, Ht; reflexivity|].
  split.
  { rewrite Jt, Ht. unfold isEmpty.
    destruct (String.eqb_spec (toString (at_key json_obj "thru")) EmptyString) as [Hempty|Hfull].
    - split; [intros [v Hv]; discriminate | congruence].
    - split; [intros _; exact Hfull | eauto]. }
  split; [exact Ja|].
  split; [exact Hbits|].
  intros Hasked Hmasks Hed Hcin Hcout Hr. rewrite Ja. do 2 f_equal.
  assert (Hrange : 0 <= _active (updated (config w) json_obj d) <= 3).
  { apply updated_range. destruct Hold as [Hzero | [a Ha]]; eauto. }
  assert (Hmask : _active (updated (config w) json_obj d)
                  = toInt (at_key json_obj "active")).
  { apply mask_eq; try assumption.
    - rewrite <- isActive_INPUT, (Hbits TYPE_INPUT) by auto.
      unfold requested, to_uint. rewrite Z.mod_small by lia. apply to_bool_land_1.
    - rewrite <- isActive_OUTPUT, (Hbits TYPE_OUTPUT) by auto.
      unfold requested, to_uint. rewrite Z.mod_small by lia. apply to_bool_land_2. }
  rewrite Hmask. unfold to_int. rewrite Z.mod_small by lia.
  destruct (Z.ltb_spec (toInt (at_key json_obj "active")) (2 ^ 31)); lia.
Qed.

End ManagerTheorems.

(** ** The code on the simulated port pair *)

(** ** Further properties of MMGDevice *)

Section MoreDeviceTheorems.

Context {P : Type} `{MMGMIDIPort P}.

(** X1. For an active mask within its two bits, the query of [isActive]
    for the third [DeviceType] value (the [default] branch) holds exactly
    when input or output is active. *)
Theorem isActive_default_is_either (d : MMGDevice P) :
  0 <= _active d <= 3 ->
  isActive TYPE_NONE d = isActive TYPE_INPUT d || isActive TYPE_OUTPUT d.
Proof.
  intros Hrange. unfold isActive.
  destruct (small_mask _ Hrange) as [E | [E | [E | E]]]; rewrite E; reflexivity.
Qed.

(** X2. For a direction [x] (input or output): when [setActive(x, want)]
    gets past its guard, then on return the recorded state of [x] is the
    state that the transport reports for the port of [x], whether the call
    flipped the bit or raised a PortOpenError; and a call that stops at the
    guard keeps that agreement if it held before. *)
Theorem setActive_agrees_with_port (cfg : option MMGConfig) (x : DeviceType)
    (want : bool) (d : MMGDevice P) :
  is_direction x = true ->
  ignored x want d = false
  \/ isActive x d = transport_isOpen x (port d) ->
  isActive x (state (setActive cfg x want d))
  = transport_isOpen x (port (state (setActive cfg x want d))).
Proof.
  intros Hdir Hcase. rewrite setActive_state.
  destruct (ignored x want d).
  - destruct Hcase as [Hcase|Hcase]; [discriminate | exact Hcase].
  - unfold mismatch.
    destruct (Bool.eqb (transport_isOpen x (port (toggled x d))) (isActive x d)) eqn:Hm.
    + rewrite isActive_toggled. symmetry. apply Bool.eqb_prop. exact Hm.
    + rewrite isActive_flipped by assumption. rewrite isActive_toggled.
      replace (port (flipped x (toggled x d))) with (port (toggled x d))
        by (destruct x; reflexivity).
      set (open := transport_isOpen x (port (toggled x d))) in *. clearbody open.
      destruct open, (isActive x d); simpl in Hm; first [discriminate | reflexivity].
Qed.

(** After a call without a PortOpenError, the same request stops at the
    guard on every device that agrees with the outcome on the state of the
    direction, on the editable flag and on the capability. *)
Lemma ignored_after (cfg : option MMGConfig) (x : DeviceType) (want : bool)
    (d d' : MMGDevice P) :
  is_direction x = true ->
  raised (trace (setActive cfg x want d)) = false ->
  editable d' = editable d ->
  isCapable x d' = isCapable x d ->
  isActive x d' = isActive x (state (setActive cfg x want d)) ->
  ignored x want d' = true.
Proof.
  intros Hdir Hraised Hed Hcap Hact.
  rewrite setActive_raised in Hraised.
  rewrite isActive_setActive in Hact by assumption.
  unfold ignored in *. rewrite Hed, Hcap, Hact.
  destruct (editable d), (isCapable x d), (isActive x d), want, (mismatch x d);
    cbn in *; congruence.
Qed.

(** X3. [update] is idempotent when it succeeds: if [update] of a record
    raises no PortOpenError, a second [update] of the same record on the
    resulting device changes nothing and makes no call at all (no port
    operation, no prompt, no refresh). *)
Theorem update_twice (cfg : option MMGConfig) (json_obj : QJsonObject) (d : MMGDevice P) :
  raised (trace (update cfg json_obj d)) = false ->
  update cfg json_obj (state (update cfg json_obj d))
  = (tt, state (update cfg json_obj d), []).
Proof.
  rewrite update_run. unfold state, trace. cbn [fst snd].
  unfold update_events. rewrite raised_app. intros Hraised.
  apply orb_false_iff in Hraised as [Hr1 Hr2].
  unfold update_input in Hr1. unfold update_output, update_input in Hr2.
  destruct (setActive_keeps cfg TYPE_INPUT (requested json_obj TYPE_INPUT) d)
    as (Hc1 & _ & _ & He1).
  destruct (setActive_keeps cfg TYPE_OUTPUT (requested json_obj TYPE_OUTPUT)
              (state (setActive cfg TYPE_INPUT (requested json_obj TYPE_INPUT) d)))
    as (Hc2 & _ & _ & He2).
  destruct (updated_keeps cfg json_obj d) as (_ & He & Hc & _).
  assert (Hin : ignored TYPE_INPUT (requested json_obj TYPE_INPUT)
                  (updated cfg json_obj d) = true).
  { apply (ignored_after cfg TYPE_INPUT _ d); try assumption; try reflexivity.
    - apply isCapable_keeps. exact Hc.
    - unfold updated, update_output, update_input. rewrite isActive_set_thru.
      apply (setActive_keeps_other cfg TYPE_OUTPUT). }
  assert (Hout : ignored TYPE_OUTPUT (requested json_obj TYPE_OUTPUT)
                   (updated cfg json_obj d) = true).
  { apply (ignored_after cfg TYPE_OUTPUT _
             (state (setActive cfg TYPE_INPUT (requested json_obj TYPE_INPUT) d)));
      try assumption; try reflexivity.
    rewrite (isCapable_keeps TYPE_OUTPUT _ _ Hc).
    symmetry. apply isCapable_keeps. exact Hc1. }
  rewrite update_run.
  assert (Hfirst : update_input cfg json_obj (updated cfg json_obj d)
                   = (tt, updated cfg json_obj d, [])).
  { unfold update_input. rewrite setActive_cases, Hin. reflexivity. }
  assert (Hsecond : update_output cfg json_obj (updated cfg json_obj d)
                    = (tt, updated cfg json_obj d, [])).
  { unfold update_output. rewrite Hfirst. unfold state. cbn [fst snd].
    rewrite setActive_cases, Hout. reflexivity. }
  unfold update_events. rewrite Hfirst, Hsecond. unfold trace. cbn [snd app].
  f_equal. f_equal.
  unfold updated at 1. rewrite Hsecond. unfold state. cbn [fst snd].
  unfold updated. reflexivity.
Qed.

(** X4. Reading back its own serialization changes nothing: for a device
    whose active mask is a [uint], [update] of the record written by
    [json] leaves the device as it is and makes no call at all. *)
Theorem update_of_own_json (cfg : option MMGConfig) (d : MMGDevice P) :
  0 <= _active d < 2 ^ 32 ->
  update cfg (json d ∅) d = (tt, d, []).
Proof.
  intros Hrange.
  destruct (json_fields d) as (_ & Ja & Jt).
  assert (Hactive : to_uint (toInt (at_key (json d ∅) "active")) = _active d).
  { unfold at_key. rewrite Ja. unfold toInt, to_int, to_uint, INT_MIN, INT_MAX.
    rewrite (Z.mod_small (_active d)) by lia.
    destruct (Z.ltb_spec (_active d) (2 ^ 31)).
    - replace ((- 2 ^ 31 <=? _active d) && (_active d <=? 2 ^ 31 - 1)) with true
        by (symmetry; apply andb_true_iff; split; apply Z.leb_le; lia).
      apply Z.mod_small. lia.
    - replace ((- 2 ^ 31 <=? _active d - 2 ^ 32) && (_active d - 2 ^ 32 <=? 2 ^ 31 - 1))
        with true by (symmetry; apply andb_true_iff; split; apply Z.leb_le; lia).
      replace (_active d - 2 ^ 32) with (_active d + (-1) * 2 ^ 32) by lia.
      rewrite Z.mod_add by lia. apply Z.mod_small. lia. }
  assert (Hthru : toString (at_key (json d ∅) "thru") = _thru d).
  { unfold at_key. rewrite Jt. unfold isEmpty.
    destruct (String.eqb_spec (_thru d) EmptyString) as [Hempty|_]; [|reflexivity].
    rewrite Hempty. reflexivity. }
  assert (Hreq : forall x, is_direction x = true -> requested (json d ∅) x = isActive x d).
  { intros x Hdir. unfold requested. rewrite Hactive.
    destruct x; [discriminate| |]; reflexivity. }
  assert (Hguard : forall x, is_direction x = true ->
            setActive cfg x (requested (json d ∅) x) d = (tt, d, [])).
  { intros x Hdir. rewrite setActive_cases. unfold ignored.
    rewrite (Hreq x Hdir), Bool.eqb_reflx, orb_true_r. reflexivity. }
  rewrite update_run. unfold update_events, updated, update_output, update_input.
  rewrite (Hguard TYPE_INPUT eq_refl). unfold state, trace. cbn [fst snd].
  rewrite (Hguard TYPE_OUTPUT eq_refl). cbn [fst snd app].
  rewrite Hthru. destruct d. reflexivity.
Qed.

(** X5. The active mask stays within its two bits: [setActive] and [update]
    keep a mask that is within 0..3 within 0..3, and [checkCapable] leaves
    a mask within 0..3 whatever the mask was before. *)
Theorem active_mask_within_two_bits (cfg : option MMGConfig) (x : DeviceType)
    (want : bool) (json_obj : QJsonObject) (d : MMGDevice P) :
  (0 <= _active d <= 3 ->
   0 <= _active (state (setActive cfg x want d)) <= 3
   /\ 0 <= _active (state (update cfg json_obj d)) <= 3)
  /\ 0 <= _active (state (checkCapable cfg d)) <= 3.
Proof.
  split.
  - intros Hrange. split; [apply setActive_range; exact Hrange|].
    rewrite update_run. apply updated_range. exact Hrange.
  - rewrite checkCapable_run. unfold state at 1. cbn [fst snd].
    unfold restore_output, restore_input.
    apply setActive_range, setActive_range. cbn. lia.
Qed.

(** X6. The port calls of [setActive(x, want)]: none when the call stops
    at its guard, else one port operation followed by one [isPortOpen]
    query. The call never closes a port when activation is asked, never
    opens one when deactivation is asked, and never calls the transport
    for a type other than [x]. *)
Theorem setActive_port_calls (cfg : option MMGConfig) (x : DeviceType) (want : bool)
    (d : MMGDevice P) :
  List.filter is_transport (trace (setActive cfg x want d))
  = (if ignored x want d then []
     else [if want then EOpenPort x else EClosePort x; EIsPortOpen x])
  /\ existsb (against want) (trace (setActive cfg x want d)) = false
  /\ existsb (port_call_elsewhere x) (trace (setActive cfg x want d)) = false.
Proof.
  rewrite setActive_cases.
  destruct (ignored x want d) eqn:Hig; [repeat split; reflexivity|].
  unfold ignored in Hig.
  apply orb_false_iff in Hig as [Hig _]. apply orb_false_iff in Hig as [_ Hsame].
  assert (Hquiet : forall l : list addr,
            List.filter is_transport (map ERefresh l) = []
            /\ existsb (against want) (map ERefresh l) = false
            /\ existsb (port_call_elsewhere x) (map ERefresh l) = false).
  { induction l as [|b l IH]; repeat split; cbn; apply IH. }
  destruct (Hquiet (first_message_bindings (objectName d) cfg)) as (Hq1 & Hq2 & Hq3).
  unfold toggle_event.
  destruct (mismatch x d); unfold trace; cbn [snd];
    destruct (isActive x d), want; try discriminate Hsame; cbn [negb app];
    cbn [List.filter existsb is_transport against port_call_elsewhere negb orb];
    rewrite ?Hq1, ?Hq2, ?Hq3; destruct x; repeat split; reflexivity.
Qed.

(** X7. [json] writes the name and the active mask, writes the thru name
    only when it is not empty, and touches no other key of the object it
    is given; when the thru string is empty a thru field that the object
    already had is left in place. *)
Theorem json_writes_three_keys (d : MMGDevice P) (device_obj : QJsonObject)
    (key : string) :
  json d device_obj !! "name" = Some (JString (objectName d))
  /\ json d device_obj !! "active" = Some (JNumber (to_int (_active d)))
  /\ json d device_obj !! "thru"
     = (if isEmpty (_thru d) then device_obj !! "thru" else Some (JString (_thru d)))
  /\ (key <> "name" -> key <> "active" -> key <> "thru" ->
      json d device_obj !! key = device_obj !! key).
Proof.
  unfold json. destruct (isEmpty (_thru d)); cbn [negb]; repeat split;
    try (intros Hn Ha Ht);
    repeat (rewrite lookup_insert_ne by congruence);
    rewrite ?lookup_insert_eq; reflexivity.
Qed.

(** X8. On a device with neither direction active, [checkCapable] only
    probes: it makes the calls of the probe and no other (no PortOpenError,
    no refresh), and leaves the device with the capabilities found, both
    directions inactive and the ports as the probe left them. *)
Theorem checkCapable_inactive_device (cfg : option MMGConfig) (d : MMGDevice P) :
  isActive TYPE_INPUT d = false ->
  isActive TYPE_OUTPUT d = false ->
  checkCapable cfg d = (tt, probed d, probe_calls (port d)).
Proof.
  intros Hin Hout. rewrite checkCapable_run.
  assert (Hfirst : restore_input cfg d = (tt, probed d, [])).
  { unfold restore_input. change (to_bool (Z.land (_active d) 1)) with (isActive TYPE_INPUT d).
    rewrite Hin, setActive_cases. unfold ignored.
    rewrite (isActive_probed TYPE_INPUT d eq_refl). cbn [Bool.eqb].
    rewrite orb_true_r. reflexivity. }
  assert (Hsecond : restore_output cfg d = (tt, probed d, [])).
  { unfold restore_output. rewrite Hfirst. unfold state. cbn [fst snd].
    change (to_bool (Z.land (_active d) 2)) with (isActive TYPE_OUTPUT d).
    rewrite Hout, setActive_cases. unfold ignored.
    rewrite (isActive_probed TYPE_OUTPUT d eq_refl). cbn [Bool.eqb].
    rewrite orb_true_r. reflexivity. }
  rewrite Hfirst, Hsecond. unfold state, trace. cbn [fst snd].
  rewrite !app_nil_r. reflexivity.
Qed.

(** X9. [update] changes neither the name, nor the editable flag, nor the
    capability mask, and stores the thru string of the record as it is: a
    record without a thru string (no such key, or a value that is not a
    string) clears it. *)
Theorem update_frame (cfg : option MMGConfig) (json_obj : QJsonObject) (d : MMGDevice P) :
  objectName (state (update cfg json_obj d)) = objectName d
  /\ editable (state (update cfg json_obj d)) = editable d
  /\ _capable (state (update cfg json_obj d)) = _capable d
  /\ _thru (state (update cfg json_obj d))
     = match json_obj !! "thru" with
       | Some (JString thru) => thru
       | _ => EmptyString
       end.
Proof.
  rewrite update_run. unfold state. cbn [fst snd].
  destruct (updated_keeps cfg json_obj d) as (Hn & He & Hc & Ht).
  repeat split; try assumption.
  rewrite Ht. unfold at_key. destruct (json_obj !! "thru") as [[]|]; reflexivity.
Qed.

End MoreDeviceTheorems.

(** ** Further facts about MMGDeviceManager *)

Section MoreManagerFacts.

Context {P : Type} `{MMGMIDIPort P}.

Lemma all_messages_repoint (w : World P) (devName : string) (newDevice : addr)
    (cfg : MMGConfig) :
  all_messages (Some (repoint_config w devName newDevice cfg))
  = map (repoint_message w devName newDevice) (all_messages (Some cfg)).
Proof.
  unfold all_messages, all_bindings, repoint_config. cbn [collections].
  rewrite <- concat_map.
  induction (concat (collections cfg)) as [|binding l IH]; [reflexivity|].
  cbn [map flat_map]. rewrite IH, map_app. reflexivity.
Qed.

Lemma all_bindings_repoint (w : World P) (devName : string) (newDevice : addr)
    (cfg : MMGConfig) :
  map b_addr (all_bindings (Some (repoint_config w devName newDevice cfg)))
  = map b_addr (all_bindings (Some cfg)).
Proof.
  unfold all_bindings, repoint_config. cbn [collections].
  rewrite <- concat_map, map_map. reflexivity.
Qed.

Lemma repoint_message_keeps (w : World P) (devName : string) (newDevice : addr)
    (message : MMGMessage) :
  m_addr (repoint_message w devName newDevice message) = m_addr message
  /\ deviceName (repoint_message w devName newDevice message) = deviceName message
  /\ has_device (repoint_message w devName newDevice message) = true
  /\ (repoint_message w devName newDevice message = message
      \/ device (repoint_message w devName newDevice message) = Some newDevice).
Proof.
  unfold repoint_message, needsRepoint, has_device.
  destruct (device message) as [a|] eqn:Hdev.
  - destruct (named w a devName); cbn [m_addr deviceName device]; rewrite ?Hdev; auto.
  - cbn [m_addr deviceName device]. auto.
Qed.

(** Changing a device for one of the same name changes no answer of
    [named]. *)
Lemma named_insert (w : World P) (a b : addr) (d d' : MMGDevice P) (name : string)
    (l : list addr) (c : option MMGConfig) :
  heap w !! a = Some d -> objectName d' = objectName d ->
  named (mkWorld (<[a := d']> (heap w)) l c) b name = named w b name.
Proof.
  intros Hd Hname. unfold named. cbn [heap].
  destruct (decide (a = b)) as [<-|Hne].
  - rewrite lookup_insert_eq, Hd, Hname. reflexivity.
  - rewrite lookup_insert_ne by exact Hne. reflexivity.
Qed.

Lemma find_none_named (name : string) (w : World P) (b : addr) :
  find name w = None -> In b (_list w) -> named w b name = false.
Proof. unfold find. intros Hnone Hin. exact (find_none _ _ Hnone b Hin). Qed.

Lemma find_app_last (f : addr -> bool) (l : list addr) (this : addr) :
  (forall b, In b l -> f b = true -> b = this) -> f this = true ->
  List.find f (l ++ [this]) = Some this.
Proof.
  intros Hl Hthis. induction l as [|x l IH]; cbn [app List.find].
  - rewrite Hthis. reflexivity.
  - destruct (f x) eqn:Hx.
    + rewrite (Hl x (or_introl eq_refl) Hx). reflexivity.
    + apply IH. intros b Hin. apply Hl. right. exact Hin.
Qed.

Lemma find_same (f g : addr -> bool) (l : list addr) :
  (forall b, f b = g b) -> List.find f l = List.find g l.
Proof.
  intros Hfg. induction l as [|x l IH]; cbn [List.find]; [reflexivity|].
  rewrite Hfg, IH. reflexivity.
Qed.

Lemma flat_map_same {A B} (f g : A -> list B) (l : list A) :
  (forall x, In x l -> f x = g x) -> flat_map f l = flat_map g l.
Proof.
  intros Hfg. induction l as [|x l IH]; cbn [flat_map]; [reflexivity|].
  rewrite (Hfg x (or_introl eq_refl)), IH; [reflexivity|].
  intros y Hy. apply Hfg. right. exact Hy.
Qed.

Lemma removeOne_In (a b : addr) (l : list addr) :
  In b (removeOne a l) -> In b l.
Proof.
  induction l as [|x l IH]; cbn [removeOne]; [auto|].
  destruct (Nat.eqb a x); cbn [In]; intuition.
Qed.

Lemma removeOne_keeps (a b : addr) (l : list addr) :
  In b l -> b <> a -> In b (removeOne a l).
Proof.
  intros Hin Hne. induction l as [|x l IH]; cbn [removeOne]; [contradiction|].
  destruct (Nat.eqb_spec a x) as [->|Hax]; destruct Hin as [->|Hin]; cbn [In]; auto.
  contradiction.
Qed.

(** The registry of the world in which [add] leaves a new device. *)
Lemma without_dummy_list (w : World P) :
  heap (without_dummy w) = heap w
  /\ (forall b, In b (_list (without_dummy w)) -> In b (_list w))
  /\ (forall b, In b (_list w) -> find (mmgtr "Device.Dummy") w <> Some b ->
      In b (_list (without_dummy w))).
Proof.
  unfold without_dummy.
  destruct (find (mmgtr "Device.Dummy") w) as [dummy|]; cbn [heap _list set_list];
    repeat split; auto.
  - intros b. apply removeOne_In.
  - intros b Hin Hne. apply removeOne_keeps; [exact Hin|]. congruence.
Qed.

(** The heap, the registry and the returned address, in both branches of
    [add]. *)
Lemma add_shape (json_obj : QJsonObject) (w : World P) :
  exists d' : MMGDevice P,
    heap (state (add json_obj w)) = <[result (add json_obj w) := d']> (heap w)
    /\ objectName d' = toString (at_key json_obj "name")
    /\ match find (toString (at_key json_obj "name")) w with
       | Some a =>
           result (add json_obj w) = a
           /\ _list (state (add json_obj w)) = _list w
           /\ exists d, heap w !! a = Some d
                        /\ d' = updated (config w) json_obj d
       | None =>
           result (add json_obj w) = fresh (dom (heap w))
           /\ _list (state (add json_obj w))
              = _list (without_dummy w) ++ [fresh (dom (heap w))]
           /\ d' = updated (config w) json_obj (base_object json_obj)
       end.
Proof.
  destruct (find (toString (at_key json_obj "name")) w) as [a|] eqn:Hfind.
  - destruct (find_Some _ _ _ Hfind) as (_ & d & Hd & Hname).
    exists (updated (config w) json_obj d).
    rewrite (add_existing_run json_obj w a d Hfind Hd).
    unfold result, state. cbn [fst snd heap _list set_heap].
    destruct (updated_keeps (config w) json_obj d) as (Hn & _).
    repeat split; [rewrite Hn; exact Hname|]. exists d. auto.
  - exists (updated (config w) json_obj (base_object json_obj)).
    rewrite (add_new_run json_obj w Hfind).
    unfold result, state. cbn [fst snd].
    destruct (updated_keeps (config w) json_obj (base_object json_obj)) as (Hn & _).
    match goal with
    | |- heap ?w' = _ /\ _ =>
        assert (Hw : heap w' = heap (registered json_obj w)
                     /\ _list w' = _list (registered json_obj w))
          by (destruct (config w); split; reflexivity)
    end.
    destruct Hw as [-> ->]. repeat split. exact Hn.
Qed.

(** The names listed for a registry, by the devices behind its entries. *)
Lemma device_names_In (w : World P) (name : string) :
  In name (device_names w)
  <-> exists a d, In a (_list w) /\ heap w !! a = Some d /\ objectName d = name.
Proof.
  unfold device_names. rewrite in_flat_map. split.
  - intros (a & Hin & Hname). destruct (heap w !! a) as [d|] eqn:Hd; [|destruct Hname].
    destruct Hname as [<-|[]]. eauto.
  - intros (a & d & Hin & Hd & <-). exists a. rewrite Hd. split; [exact Hin|]. left. reflexivity.
Qed.

Lemma names_of_sublist (h : gmap addr (MMGDevice P)) (a : addr) (l : list addr) :
  List.NoDup (flat_map (fun b => match h !! b with
                                 | Some d => [objectName d]
                                 | None => []
                                 end) l) ->
  List.NoDup (flat_map (fun b => match h !! b with
                                 | Some d => [objectName d]
                                 | None => []
                                 end) (removeOne a l)).
Proof.
  set (f := fun b => match h !! b with Some d => [objectName d] | None => [] end).
  induction l as [|x l IH]; cbn [removeOne flat_map]; [auto|].
  intros Hnodup. apply NoDup_ListNoDup in Hnodup.
  apply NoDup_app in Hnodup as (Hx & Hdisjoint & Hl).
  apply NoDup_ListNoDup in Hl. destruct (Nat.eqb a x); [exact Hl|].
  cbn [flat_map]. apply NoDup_ListNoDup, NoDup_app.
  split; [exact Hx|]. split; [|apply NoDup_ListNoDup, IH; exact Hl].
  {
    intros name Hname Hin. apply (Hdisjoint name Hname).
    apply list_elem_of_In. apply list_elem_of_In in Hin.
    apply in_flat_map in Hin as (b & Hb & Hin).
    apply in_flat_map. exists b. split; [|exact Hin].
    apply (removeOne_In a). exact Hb. }
Qed.

End MoreManagerFacts.

(** ** Further properties of MMGDeviceManager *)

Section MoreManagerTheorems.

Context {P : Type} `{MMGMIDIPort P}.

(** X10. After [updateDeviceReferences] no message of the tree has a null
    device back-reference: every message that had none points to the new
    device, whatever device name the message holds. Every message is
    either as it was or points to the new device; the addresses and device
    names of the messages, the bindings, the device objects and the
    registry are as before. *)
Theorem updateDeviceReferences_leaves_no_null (devName : string) (newDevice : addr)
    (w : World P) :
  forallb has_device
    (all_messages (config (state (updateDeviceReferences devName newDevice w)))) = true
  /\ Forall2 (fun before after => after = before \/ device after = Some newDevice)
       (all_messages (config w))
       (all_messages (config (state (updateDeviceReferences devName newDevice w))))
  /\ map m_addr (all_messages (config (state (updateDeviceReferences devName newDevice w))))
     = map m_addr (all_messages (config w))
  /\ map deviceName
       (all_messages (config (state (updateDeviceReferences devName newDevice w))))
     = map deviceName (all_messages (config w))
  /\ map b_addr (all_bindings (config (state (updateDeviceReferences devName newDevice w))))
     = map b_addr (all_bindings (config w))
  /\ heap (state (updateDeviceReferences devName newDevice w)) = heap w
  /\ _list (state (updateDeviceReferences devName newDevice w)) = _list w.
Proof.
  rewrite updateDeviceReferences_run. unfold state. cbn [fst snd].
  destruct (config w) as [cfg|] eqn:Hcfg.
  - cbn [config set_config heap _list].
    rewrite all_messages_repoint, all_bindings_repoint.
    repeat split.
    + induction (all_messages (Some cfg)) as [|message l IH]; [reflexivity|].
      cbn [map forallb]. rewrite IH.
      destruct (repoint_message_keeps w devName newDevice message) as (_ & _ & -> & _).
      reflexivity.
    + induction (all_messages (Some cfg)) as [|message l IH]; constructor; [|exact IH].
      apply (repoint_message_keeps w devName newDevice message).
    + rewrite map_map. apply map_ext. intros message.
      apply (repoint_message_keeps w devName newDevice message).
    + rewrite map_map. apply map_ext. intros message.
      apply (repoint_message_keeps w devName newDevice message).
  - rewrite Hcfg. repeat split; auto.
Qed.

(** X11. [refreshBindingsForDevice] changes nothing in the world and calls
    nothing but [refresh]; it refreshes the bindings that have some message
    naming the device, in visiting order, and a binding is refreshed once
    however many of its messages name the device (when no two bindings of
    the tree share an address: exactly once if some message names it, not
    at all otherwise). *)
Theorem refreshBindingsForDevice_once (devName : string) (w : World P) :
  state (refreshBindingsForDevice devName w) = w
  /\ forallb is_refresh (trace (refreshBindingsForDevice devName w)) = true
  /\ refreshed (trace (refreshBindingsForDevice devName w))
     = any_message_bindings devName (config w)
  /\ (List.NoDup (map b_addr (all_bindings (config w))) ->
      forall binding, In binding (all_bindings (config w)) ->
      count_occ Nat.eq_dec (refreshed (trace (refreshBindingsForDevice devName w)))
        (b_addr binding)
      = if anyMessageUses devName binding then 1%nat else 0%nat).
Proof.
  rewrite refreshBindingsForDevice_run. unfold state, trace. cbn [fst snd].
  rewrite refreshed_map_ERefresh. repeat split.
  - induction (any_message_bindings devName (config w)); auto.
  - intros Hnodup binding Hin. unfold any_message_bindings.
    apply count_occ_filter_NoDup; assumption.
Qed.

(** X12. After [add] of a record, [find] of the record's name answers the
    device that [add] returned; so a second [add] of the same record
    returns the same device and leaves the registry list as the first
    left it. *)
Theorem add_then_find (json_obj : QJsonObject) (w : World P) :
  find (toString (at_key json_obj "name")) (state (add json_obj w))
  = Some (result (add json_obj w))
  /\ result (add json_obj (state (add json_obj w))) = result (add json_obj w)
  /\ _list (state (add json_obj (state (add json_obj w))))
     = _list (state (add json_obj w)).
Proof.
  assert (Hfound : find (toString (at_key json_obj "name")) (state (add json_obj w))
                   = Some (result (add json_obj w))).
  { destruct (add_shape json_obj w) as (d' & Hheap & Hname & Hcase).
    unfold find at 1.
    assert (Hnamed : forall b,
              named (state (add json_obj w)) b (toString (at_key json_obj "name"))
              = if decide (result (add json_obj w) = b) then true
                else named w b (toString (at_key json_obj "name"))).
    { intros b. unfold named. rewrite Hheap.
      destruct (decide (result (add json_obj w) = b)) as [<-|Hne].
      - rewrite lookup_insert_eq, Hname. apply String.eqb_refl.
      - rewrite lookup_insert_ne by exact Hne. reflexivity. }
    destruct (find (toString (at_key json_obj "name")) w) as [a|] eqn:Hfind.
    - destruct Hcase as (Hres & Hlist & d & Hd & _). rewrite Hlist, Hres.
      rewrite Hres in Hnamed.
      unfold find in Hfind.
      rewrite <- Hfind. apply find_same. intros b.
      rewrite Hnamed. destruct (decide (a = b)) as [<-|_]; [|reflexivity].
      symmetry. apply find_some in Hfind. apply Hfind.
    - destruct Hcase as (Hres & Hlist & _). rewrite Hlist, Hres.
      rewrite Hres in Hnamed.
      apply find_app_last.
      + intros b Hin. rewrite Hnamed.
        destruct (decide (fresh (dom (heap w)) = b)) as [<-|_]; [reflexivity|].
        rewrite (find_none_named _ w b Hfind); [discriminate|].
        apply (without_dummy_list w). exact Hin.
      + rewrite Hnamed. destruct (decide _); [reflexivity|contradiction]. }
  split; [exact Hfound|].
  destruct (add_shape json_obj (state (add json_obj w))) as (d'' & _ & _ & Hagain).
  rewrite Hfound in Hagain. destruct Hagain as (Hres & Hlist & _).
  split; assumption.
Qed.


(** X14. [add] keeps the names of the registry distinct: in a world where
    every registered address holds a device, if no two registered devices
    share a name before [add] then none do after it. *)
Theorem add_keeps_names_distinct (json_obj : QJsonObject) (w : World P) :
  (forall b : addr, In b (_list w) -> is_Some (heap w !! b)) ->
  List.NoDup (device_names w) ->
  List.NoDup (device_names (state (add json_obj w))).
Proof.
  intros Hwf Hnodup.
  destruct (add_shape json_obj w) as (d' & Hheap & Hname & Hcase).
  unfold device_names. rewrite Hheap.
  destruct (find (toString (at_key json_obj "name")) w) as [a|] eqn:Hfind.
  - destruct Hcase as (Hres & Hlist & d & Hd & _). rewrite Hlist, Hres.
    destruct (find_Some _ _ _ Hfind) as (_ & d0 & Hd0 & Hname0).
    replace (flat_map _ (_list w)) with (device_names w); [exact Hnodup|].
    unfold device_names. apply flat_map_ext. intros b.
    destruct (decide (a = b)) as [<-|Hne].
    + rewrite lookup_insert_eq, Hd0, Hname, Hname0. reflexivity.
    + rewrite lookup_insert_ne by exact Hne. reflexivity.
  - destruct Hcase as (Hres & Hlist & _). rewrite Hlist, Hres.
    destruct (without_dummy_list w) as (_ & Hsub & _).
    assert (Hfresh : forall b, In b (_list (without_dummy w)) ->
              fresh (dom (heap w)) <> b).
    { intros b Hin <-. destruct (Hwf _ (Hsub _ Hin)) as [d Hd].
      rewrite fresh_is_new in Hd. discriminate. }
    rewrite flat_map_app. cbn [flat_map]. rewrite lookup_insert_eq, app_nil_r.
    replace (flat_map _ (_list (without_dummy w)))
      with (device_names (without_dummy w)).
    2:{ unfold device_names. apply flat_map_same. intros b Hin.
        rewrite lookup_insert_ne by (apply Hfresh; exact Hin).
        destruct (without_dummy_list w) as (-> & _). reflexivity. }
    apply NoDup_ListNoDup, NoDup_app. split; [|split].
    + apply NoDup_ListNoDup. unfold device_names, without_dummy.
      destruct (find (mmgtr "Device.Dummy") w); cbn [heap _list set_list];
        [apply names_of_sublist|]; exact Hnodup.
    + intros name Hbefore Hnew. apply list_elem_of_In in Hbefore.
      apply list_elem_of_In in Hnew. destruct Hnew as [Hnew|[]].
      apply device_names_In in Hbefore as (b & d & Hin & Hd & Hb).
      destruct (without_dummy_list w) as (Hh & _). rewrite Hh in Hd.
      pose proof (find_none_named _ w b Hfind (Hsub _ Hin)) as Hnot.
      unfold named in Hnot. rewrite Hd in Hnot.
      apply String.eqb_neq in Hnot. congruence.
    + apply NoDup_singleton.
Qed.

(** X15. [add] of a record whose name is registered changes no listing: the
    names of the registry and, for every [DeviceType], the capable devices
    that [capableDevices] lists are what they were. *)
Theorem add_existing_keeps_listings (json_obj : QJsonObject) (w : World P)
    (a : addr) (type : DeviceType) :
  find (toString (at_key json_obj "name")) w = Some a ->
  device_names (state (add json_obj w)) = device_names w
  /\ capableDevices type (state (add json_obj w)) = capableDevices type w.
Proof.
  intros Hfind.
  destruct (find_Some _ _ _ Hfind) as (_ & d & Hd & Hname).
  rewrite (add_existing_run json_obj w a d Hfind Hd).
  unfold state. cbn [fst snd].
  destruct (updated_keeps (config w) json_obj d) as (Hn & _ & Hc & _).
  unfold device_names, capableDevices. cbn [heap _list set_heap].
  split; apply flat_map_ext; intros b;
    (destruct (decide (a = b)) as [<-|Hne];
     [rewrite lookup_insert_eq, Hd, ?Hn, ?(isCapable_keeps type _ _ Hc); reflexivity
     |rewrite lookup_insert_ne by exact Hne; reflexivity]).
Qed.

(** X16. [add(name)] builds a record that holds the name only, so it asks
    for no direction and no thru name. The device it returns has that name
    and an empty thru string, and each direction of which it is editable
    and capable is inactive unless a PortOpenError was raised. For a name
    that is not registered the call touches no port and raises nothing,
    and the new device has the active mask 0. *)
Theorem add_name_asks_for_nothing (name : string) (w : World P) :
  exists d' : MMGDevice P,
    heap (state (add_name name w)) !! result (add_name name w) = Some d'
    /\ objectName d' = name
    /\ _thru d' = EmptyString
    /\ (forall x : DeviceType,
          is_direction x = true -> editable d' = true -> isCapable x d' = true ->
          raised (trace (add_name name w)) = false ->
          isActive x d' = false)
    /\ (find name w = None ->
        _active d' = 0
        /\ existsb is_transport (trace (add_name name w)) = false
        /\ raised (trace (add_name name w)) = false).
Proof.
  unfold add_name.
  set (json_obj := <["name" := JString name]> ∅ : QJsonObject).
  assert (Jname : toString (at_key json_obj "name") = name).
  { unfold at_key, json_obj. rewrite lookup_insert_eq. reflexivity. }
  assert (Jthru : toString (at_key json_obj "thru") = EmptyString).
  { unfold at_key, json_obj. rewrite lookup_insert_ne by discriminate.
    rewrite lookup_empty. reflexivity. }
  assert (Jactive : forall x, requested json_obj x = false).
  { intros x. unfold requested, at_key, json_obj.
    rewrite lookup_insert_ne by discriminate. rewrite lookup_empty.
    destruct x; reflexivity. }
  destruct (add_returns json_obj w) as (d & Hd & Hname & _ & Hraised).
  destruct (updated_keeps (config w) json_obj d) as (Hn & He & Hc & Ht).
  exists (updated (config w) json_obj d).
  split; [exact Hd|].
  split; [rewrite Hn, Hname; exact Jname|].
  split; [rewrite Ht; exact Jthru|].
  split.
  { intros x Hdir Hed Hcap Hr. rewrite <- (Jactive x).
    apply isActive_updated; auto.
    - rewrite <- He. exact Hed.
    - rewrite <- (isCapable_keeps x _ _ Hc). exact Hcap. }
  intros Hfind. rewrite <- Jname in Hfind.
  rewrite (add_new_run json_obj w Hfind) in Hd |- *.
  unfold result, state, trace in Hd |- *. cbn [fst snd] in Hd |- *.
  assert (Hguard : forall x, is_direction x = true ->
            setActive (config w) x (requested json_obj x) (base_object json_obj)
            = (tt, base_object json_obj, [])).
  { intros x Hdir. rewrite setActive_cases. unfold ignored. rewrite (Jactive x).
    replace (isActive x (base_object json_obj)) with false
      by (destruct x; [discriminate| |]; reflexivity).
    cbn [Bool.eqb]. rewrite orb_true_r. reflexivity. }
  assert (Hin : update_input (config w) json_obj (base_object json_obj)
                = (tt, base_object json_obj, []))
    by (apply (Hguard TYPE_INPUT eq_refl)).
  assert (Hout : update_output (config w) json_obj (base_object json_obj)
                 = (tt, base_object json_obj, [])).
  { unfold update_output. rewrite Hin. apply (Hguard TYPE_OUTPUT eq_refl). }
  assert (Hevents : update_events (config w) json_obj (base_object json_obj) = []).
  { unfold update_events. rewrite Hin, Hout. reflexivity. }
  assert (Hsame : updated (config w) json_obj d
                  = updated (config w) json_obj (base_object json_obj)).
  { assert (Hlookup : heap (registered json_obj w) !! fresh (dom (heap w))
                      = Some (updated (config w) json_obj (base_object json_obj)))
      by apply lookup_insert_eq.
    match type of Hd with
    | heap ?w' !! _ = _ =>
        replace (heap w') with (heap (registered json_obj w)) in Hd
          by (destruct (config w); reflexivity)
    end.
    congruence. }
  rewrite Hsame, Hevents.
  split.
  { unfold updated. rewrite Hout. reflexivity. }
  assert (Hquiet : forall tr, existsb is_transport tr = false -> raised tr = false ->
            existsb is_transport (removal_events w ++ ENew (fresh (dom (heap w))) :: tr) = false
            /\ raised (removal_events w ++ ENew (fresh (dom (heap w))) :: tr) = false).
  { intros tr Ht1 Ht2. rewrite existsb_app, raised_app. unfold removal_events.
    destruct (find (mmgtr "Device.Dummy") w); cbn; rewrite ?Ht1; auto. }
  apply Hquiet.
  - cbn [app existsb is_transport orb]. rewrite existsb_app.
    apply orb_false_iff. split.
    + unfold repoint_events.
      induction (all_bindings (config w)) as [|binding l IH]; [reflexivity|].
      cbn [flat_map]. rewrite existsb_app, IH, orb_false_r.
      induction (messages binding) as [|message ms IHm]; [reflexivity|].
      cbn [flat_map]. rewrite existsb_app, IHm, orb_false_r.
      destruct (needsRepoint _ _ message); reflexivity.
    + induction (any_message_bindings _ _); auto.
  - cbn [app]. change (raised (EManagerAdd ?a :: ?t)) with (raised t).
    rewrite raised_app, raised_map_ERefresh, orb_false_r.
    unfold repoint_events.
    induction (all_bindings (config w)) as [|binding l IH]; [reflexivity|].
    cbn [flat_map]. rewrite raised_app, IH, orb_false_r.
    induction (messages binding) as [|message ms IHm]; [reflexivity|].
    cbn [flat_map]. rewrite raised_app, IHm, orb_false_r.
    destruct (needsRepoint _ _ message); reflexivity.
Qed.

(** X17. [capableDevices(type)] lists names of the registry only, in
    registry order, and a name is listed exactly when some registered
    device of that name is capable of [type]; whether the device is active
    plays no part. *)
Theorem capableDevices_lists_capable (type : DeviceType) (w : World P) :
  sublist (capableDevices type w) (device_names w)
  /\ (forall name : string,
        In name (capableDevices type w)
        <-> exists a d, In a (_list w) /\ heap w !! a = Some d
                        /\ isCapable type d = true /\ objectName d = name).
Proof.
  split.
  - unfold capableDevices, device_names.
    induction (_list w) as [|a l IH]; cbn [flat_map]; [constructor|].
    apply sublist_app; [|exact IH].
    destruct (heap w !! a) as [d|]; [|constructor].
    destruct (isCapable type d); [reflexivity | apply sublist_nil_l].
  - intros name. unfold capableDevices. rewrite in_flat_map. split.
    + intros (a & Hin & Hname). destruct (heap w !! a) as [d|] eqn:Hd; [|destruct Hname].
      destruct (isCapable type d) eqn:Hcap; [|destruct Hname].
      destruct Hname as [<-|[]]. eauto 6.
    + intros (a & d & Hin & Hd & Hcap & <-). exists a.
      rewrite Hd, Hcap. split; [exact Hin|]. left. reflexivity.
Qed.

(** X18. After [add] of a record whose name is not registered, with a
    configuration in place, no message of the tree is left with a null
    device back-reference, and the addresses and device names of the
    messages are as before. *)
Theorem add_new_leaves_no_null (json_obj : QJsonObject) (w : World P) (cfg : MMGConfig) :
  find (toString (at_key json_obj "name")) w = None ->
  config w = Some cfg ->
  forallb has_device (all_messages (config (state (add json_obj w)))) = true
  /\ map m_addr (all_messages (config (state (add json_obj w))))
     = map m_addr (all_messages (config w))
  /\ map deviceName (all_messages (config (state (add json_obj w))))
     = map deviceName (all_messages (config w)).
Proof.
  intros Hfind Hcfg. rewrite (add_new_run json_obj w Hfind).
  unfold state. cbn [fst snd]. rewrite Hcfg. cbn [config set_config].
  rewrite all_messages_repoint.
  set (rw := registered json_obj w).
  set (name := toString (at_key json_obj "name")).
  set (this := fresh (dom (heap w))).
  repeat split.
  - induction (all_messages (Some cfg)) as [|message l IH]; [reflexivity|].
    cbn [map forallb]. rewrite IH.
    destruct (repoint_message_keeps rw name this message) as (_ & _ & -> & _).
    reflexivity.
  - rewrite map_map. apply map_ext. intros message.
    apply (repoint_message_keeps rw name this message).
  - rewrite map_map. apply map_ext. intros message.
    apply (repoint_message_keeps rw name this message).
Qed.

End MoreManagerTheorems.

Section Runs.

Import Sim.

Lemma setActive_returns_immediately_witness :
  (editable incapable_A = false \/ true = isActive TYPE_INPUT incapable_A
   \/ isCapable TYPE_INPUT incapable_A = false)
  /\ setActive tree_A TYPE_INPUT true incapable_A = (tt, incapable_A, []).
Proof.
  split.
  - right. right. reflexivity.
  - apply (setActive_returns_immediately tree_A TYPE_INPUT true incapable_A).
    right. right. reflexivity.
Defined.

(** C1 as written fails: a device that is not capable of input returns
    from [setActive(Input, true)] without a PortOpenError and input is not
    active. *)
Lemma setActive_true_not_capable :
  raised (trace (setActive tree_A TYPE_INPUT true incapable_A)) = false
  /\ isActive TYPE_INPUT (state (setActive tree_A TYPE_INPUT true incapable_A)) = false.
Proof. split; reflexivity. Qed.

Lemma setActive_true_or_PortOpenError_witness :
  is_direction TYPE_OUTPUT = true
  /\ editable device_A = true
  /\ isCapable TYPE_OUTPUT device_A = true
  /\ raised (trace (setActive tree_A TYPE_OUTPUT true device_A)) = false
  /\ isActive TYPE_OUTPUT (state (setActive tree_A TYPE_OUTPUT true device_A)) = true
  /\ transport_isOpen TYPE_OUTPUT
       (port (state (setActive tree_A TYPE_OUTPUT true device_A))) = true.
Proof.
  repeat (split; [reflexivity|]).
  apply (proj1 (setActive_true_or_PortOpenError tree_A TYPE_OUTPUT true device_A));
    try reflexivity.
  intros Hactive. discriminate Hactive.
Defined.

Lemma setActive_refreshes_first_message_bindings_witness :
  is_direction TYPE_OUTPUT = true
  /\ refreshed (trace (setActive tree_A TYPE_OUTPUT true device_A)) = [7%nat]
  /\ count_occ Nat.eq_dec
       (refreshed (trace (setActive tree_A TYPE_OUTPUT true device_A))) 7%nat = 1%nat
  /\ count_occ Nat.eq_dec
       (refreshed (trace (setActive tree_A TYPE_OUTPUT true device_A))) 8%nat = 0%nat.
Proof.
  split; [reflexivity|].
  destruct (setActive_refreshes_first_message_bindings tree_A TYPE_OUTPUT true device_A
              eq_refl) as [Hlist Hcount].
  assert (Hnodup : List.NoDup (map b_addr (all_bindings tree_A))).
  { repeat constructor; simpl; intuition discriminate. }
  split; [exact Hlist|]. split.
  - apply (Hcount Hnodup (mkBinding 7%nat [mkMessage 1%nat "A" None; mkMessage 2%nat "B" None])).
    simpl. auto.
  - apply (Hcount Hnodup (mkBinding 8%nat [mkMessage 3%nat "B" None; mkMessage 4%nat "A" None])).
    simpl. auto.
Defined.

(** C4 as written fails: the transport calls of the probe are not those of
    the spec's order, and on the working port pair the probe goes through
    a state in which both ports are open. *)
Lemma checkCapable_opens_output_before_closing_input :
  List.filter is_transport (trace (checkCapable tree_A incapable_A)) = probe_order
  /\ probe_order <> probe_order_of_the_spec
  /\ existsb both_open (replay (trace (checkCapable tree_A incapable_A)) closed) = true.
Proof. split; [reflexivity|]. split; [discriminate|reflexivity]. Qed.

(** C6 as written fails. On a device that is not editable: input was
    active before [checkCapable], the probe finds input capable, and input
    is inactive afterwards. On an editable device whose input can be opened
    once more: the probe opens it and finds it capable, the restoring
    [setActive] cannot open it again, raises a PortOpenError and leaves
    input inactive. *)
Lemma checkCapable_does_not_always_restore :
  (isActive TYPE_INPUT locked_input_A = true
   /\ found_capable TYPE_INPUT (port locked_input_A) = true
   /\ isCapable TYPE_INPUT (state (checkCapable tree_A locked_input_A)) = true
   /\ isActive TYPE_INPUT (state (checkCapable tree_A locked_input_A)) = false)
  /\ (isActive TYPE_INPUT scarce_input_A = true
      /\ editable scarce_input_A = true
      /\ found_capable (H := scarce) TYPE_INPUT (port scarce_input_A) = true
      /\ raised (trace (checkCapable (H := scarce) tree_A scarce_input_A)) = true
      /\ isActive TYPE_INPUT
           (state (checkCapable (H := scarce) tree_A scarce_input_A)) = false).
Proof. repeat split; reflexivity. Qed.

Lemma checkCapable_restores_witness :
  (is_direction TYPE_INPUT = true
   /\ editable input_A = true
   /\ isActive TYPE_INPUT input_A = true
   /\ found_capable TYPE_INPUT (port input_A) = true
   /\ transport_isOpen TYPE_INPUT
        (transport_open TYPE_INPUT (restoring_port tree_A TYPE_INPUT input_A)) = true
   /\ isActive TYPE_INPUT (state (checkCapable tree_A input_A)) = true)
  /\ (editable scarce_input_A = true
      /\ isActive TYPE_INPUT scarce_input_A = true
      /\ found_capable (H := scarce) TYPE_INPUT (port scarce_input_A) = true
      /\ transport_isOpen (MMGMIDIPort := scarce) TYPE_INPUT
           (transport_open (MMGMIDIPort := scarce) TYPE_INPUT
              (restoring_port (H := scarce) tree_A TYPE_INPUT scarce_input_A)) = false
      /\ raised (trace (checkCapable (H := scarce) tree_A scarce_input_A)) = true
      /\ isActive TYPE_INPUT
           (state (checkCapable (H := scarce) tree_A scarce_input_A)) = false)
  /\ (editable scarce_twice_A = true
      /\ isActive TYPE_INPUT scarce_twice_A = true
      /\ found_capable (H := scarce) TYPE_INPUT (port scarce_twice_A) = true
      /\ transport_isOpen (MMGMIDIPort := scarce) TYPE_INPUT
           (transport_open (MMGMIDIPort := scarce) TYPE_INPUT
              (restoring_port (H := scarce) tree_A TYPE_INPUT scarce_twice_A)) = true
      /\ isActive TYPE_INPUT
           (state (checkCapable (H := scarce) tree_A scarce_twice_A)) = true).
Proof.
  split; [|split].
  - repeat (split; [reflexivity|]).
    destruct (checkCapable_restores tree_A TYPE_INPUT input_A eq_refl)
      as (_ & _ & _ & _ & Hagain & _).
    apply Hagain; reflexivity.
  - repeat (split; [reflexivity|]).
    destruct (checkCapable_restores (H := scarce) tree_A TYPE_INPUT scarce_input_A eq_refl)
      as (_ & _ & _ & _ & _ & Hfails & _).
    apply Hfails; reflexivity.
  - repeat (split; [reflexivity|]).
    destruct (checkCapable_restores (H := scarce) tree_A TYPE_INPUT scarce_twice_A eq_refl)
      as (_ & _ & _ & _ & Hagain & _).
    apply Hagain; reflexivity.
Defined.

Lemma null_config_is_no_op_witness :
  config world_null = None
  /\ setActive (config world_null) TYPE_INPUT true device_A
     = (tt, mkDevice "A" true 1 3 EmptyString (mkPort true false),
        [EOpenPort TYPE_INPUT; EIsPortOpen TYPE_INPUT])
  /\ updateDeviceReferences "A" 1%nat world_null = (tt, world_null, [])
  /\ refreshBindingsForDevice "A" world_null = (tt, world_null, []).
Proof.
  split; [reflexivity|].
  destruct (null_config_is_no_op TYPE_INPUT true device_A "A" 1%nat world_null eq_refl)
    as (Hset & _ & Hupdate & Hrefresh).
  split; [rewrite Hset; reflexivity|].
  split; [exact Hupdate | exact Hrefresh].
Defined.

Lemma add_existing_updates_in_place_witness :
  find (toString (at_key (record "A" 2) "name")) world_A = Some 1%nat
  /\ result (add (record "A" 2) world_A) = 1%nat
  /\ _list (state (add (record "A" 2) world_A)) = [1%nat]
  /\ config (state (add (record "A" 2) world_A)) = tree_A
  /\ (forall b : addr,
        In b (refreshed (trace (add (record "A" 2) world_A)))
        <-> In b (any_message_bindings
                    (toString (at_key (record "A" 2) "name")) (config world_A))).
Proof.
  assert (Hfind : find (toString (at_key (record "A" 2) "name")) world_A = Some 1%nat)
    by (vm_compute; reflexivity).
  split; [exact Hfind|].
  destruct (add_existing_updates_in_place (record "A" 2) world_A 1%nat Hfind)
    as (d & _ & _ & Hresult & _ & Hlist & Hconfig & _ & Hrefreshed & _).
  split; [exact Hresult|].
  split; [exact Hlist|].
  split; [exact Hconfig | exact Hrefreshed].
Defined.

(** C3 as written fails: when the constructor activates the new device, a
    binding is refreshed before the first message is repointed. *)
Lemma add_refreshes_before_repointing :
  find "Real" world_dummy = None
  /\ trace (add (record "Real" 1) world_dummy)
     = [ERemove 5%nat; ENew 6%nat;
        EOpenPort TYPE_INPUT; EIsPortOpen TYPE_INPUT; ERefresh 7%nat;
        EManagerAdd 6%nat; ESetDevice 1%nat 6%nat; ERefresh 7%nat]
  /\ refresh_then_setDevice (trace (add (record "Real" 1) world_dummy)) = true.
Proof. repeat split; vm_compute; reflexivity. Qed.

Lemma add_new_device_witness :
  find (toString (at_key (record "Real" 1) "name")) world_dummy = None
  /\ _list world_dummy = [5%nat]
  /\ named world_dummy 5%nat (mmgtr "Device.Dummy") = true
  /\ _list (state (add (record "Real" 1) world_dummy))
     = [fresh (dom (heap world_dummy))]
  /\ device_names (state (add (record "Real" 1) world_dummy))
     = [toString (at_key (record "Real" 1) "name")].
Proof.
  assert (Hfind : find (toString (at_key (record "Real" 1) "name")) world_dummy = None)
    by (vm_compute; reflexivity).
  assert (Hnamed : named world_dummy 5%nat (mmgtr "Device.Dummy") = true)
    by (vm_compute; reflexivity).
  split; [exact Hfind|]. split; [reflexivity|]. split; [exact Hnamed|].
  destruct (add_new_device (record "Real" 1) world_dummy Hfind)
    as (_ & _ & _ & _ & _ & _ & _ & _ & Honly).
  apply (Honly 5%nat eq_refl Hnamed).
Defined.

(** C5 as written fails: a record that asks for input on a device that is
    not capable of input is serialized back with the active mask 0. *)
Lemma add_then_json_not_capable :
  at_key (record "A" 1) "active" = JNumber 1
  /\ raised (trace (add (record "A" 1) world_incapable)) = false
  /\ (fun d => json d ∅ !! "active")
       <$> (heap (state (add (record "A" 1) world_incapable))
              !! result (add (record "A" 1) world_incapable))
     = Some (Some (JNumber 0)).
Proof. repeat split; vm_compute; reflexivity. Qed.

Lemma add_then_json_witness :
  exists d' : MMGDevice Port,
    heap (state (add (record_thru "A" 3 "B") world_A)) !! result (add (record_thru "A" 3 "B") world_A)
    = Some d'
    /\ json d' ∅ !! "name" = Some (JString "A")
    /\ json d' ∅ !! "thru" = Some (JString "B")
    /\ json d' ∅ !! "active" = Some (JNumber 3).
Proof.
  destruct (add_then_json (record_thru "A" 3 "B") world_A)
    as (d' & Hd & Hname & Hthru & _ & _ & _ & Hmask).
  assert (Hd' : d' = mkDevice "A" true 3 3 "B" (mkPort true true)).
  { assert (Hrun : heap (state (add (record_thru "A" 3 "B") world_A))
                     !! result (add (record_thru "A" 3 "B") world_A)
                   = Some (mkDevice "A" true 3 3 "B" (mkPort true true)))
      by (vm_compute; reflexivity).
    rewrite Hrun in Hd. injection Hd as <-. reflexivity. }
  exists d'. split; [exact Hd|]. split; [exact Hname|]. split; [exact Hthru|].
  apply Hmask.
  - vm_compute. split; discriminate.
  - intros a d Hlookup. unfold world_A in Hlookup. cbn [heap] in Hlookup.
    apply lookup_insert_Some in Hlookup as [[_ <-] | [_ Hempty]].
    + vm_compute. split; discriminate.
    + rewrite lookup_empty in Hempty. discriminate Hempty.
  - rewrite Hd'. reflexivity.
  - rewrite Hd'. reflexivity.
  - rewrite Hd'. reflexivity.
  - vm_compute. reflexivity.
Defined.

End Runs.

(** ** Further runs on the simulated port pair *)

Section MoreRuns.

Import Sim.

Lemma isActive_default_is_either_witness :
  0 <= _active input_A <= 3
  /\ isActive TYPE_NONE input_A = isActive TYPE_INPUT input_A || isActive TYPE_OUTPUT input_A.
Proof.
  assert (Hrange : 0 <= _active input_A <= 3) by (cbn; lia).
  split; [exact Hrange|]. apply (isActive_default_is_either input_A Hrange).
Defined.

Lemma setActive_agrees_with_port_witness :
  is_direction TYPE_OUTPUT = true
  /\ ignored TYPE_OUTPUT true device_A = false
  /\ isActive TYPE_OUTPUT (state (setActive tree_A TYPE_OUTPUT true device_A))
     = transport_isOpen TYPE_OUTPUT (port (state (setActive tree_A TYPE_OUTPUT true device_A))).
Proof.
  split; [reflexivity|]. split; [reflexivity|].
  apply (setActive_agrees_with_port tree_A TYPE_OUTPUT true device_A eq_refl).
  left. reflexivity.
Defined.

Lemma update_twice_witness :
  raised (trace (update tree_A (record "A" 3) device_A)) = false
  /\ update tree_A (record "A" 3) (state (update tree_A (record "A" 3) device_A))
     = (tt, state (update tree_A (record "A" 3) device_A), []).
Proof.
  assert (Hquiet : raised (trace (update tree_A (record "A" 3) device_A)) = false)
    by (vm_compute; reflexivity).
  split; [exact Hquiet|]. apply (update_twice tree_A (record "A" 3) device_A Hquiet).
Defined.

Lemma update_of_own_json_witness :
  0 <= _active input_A < 2 ^ 32
  /\ update tree_A (json input_A ∅) input_A = (tt, input_A, []).
Proof.
  assert (Hrange : 0 <= _active input_A < 2 ^ 32) by (cbn; lia).
  split; [exact Hrange|]. apply (update_of_own_json tree_A input_A Hrange).
Defined.

Lemma active_mask_within_two_bits_witness :
  0 <= _active device_A <= 3
  /\ 0 <= _active (state (setActive tree_A TYPE_INPUT true device_A)) <= 3
  /\ 0 <= _active (state (update tree_A (record "A" 3) device_A)) <= 3.
Proof.
  assert (Hrange : 0 <= _active device_A <= 3) by (cbn; lia).
  split; [exact Hrange|].
  apply (proj1 (active_mask_within_two_bits tree_A TYPE_INPUT true (record "A" 3) device_A)
           Hrange).
Defined.

Lemma json_writes_three_keys_witness :
  json device_A (<["id" := JNumber 7]> (<["thru" := JString "old"]> ∅)) !! "id"
  = Some (JNumber 7)
  /\ json device_A (<["id" := JNumber 7]> (<["thru" := JString "old"]> ∅)) !! "thru"
     = Some (JString "old").
Proof.
  destruct (json_writes_three_keys device_A
              (<["id" := JNumber 7]> (<["thru" := JString "old"]> ∅)) "id")
    as (_ & _ & Hthru & Hother).
  split.
  - rewrite Hother by discriminate. vm_compute. reflexivity.
  - rewrite Hthru. vm_compute. reflexivity.
Defined.

Lemma checkCapable_inactive_device_witness :
  isActive TYPE_INPUT incapable_A = false
  /\ isActive TYPE_OUTPUT incapable_A = false
  /\ checkCapable tree_A incapable_A
     = (tt, mkDevice "A" true 0 3 EmptyString closed, probe_calls closed).
Proof.
  split; [reflexivity|]. split; [reflexivity|].
  rewrite (checkCapable_inactive_device tree_A incapable_A eq_refl eq_refl).
  reflexivity.
Defined.

Lemma refreshBindingsForDevice_once_witness :
  List.NoDup (map b_addr (all_bindings (config world_AB)))
  /\ count_occ Nat.eq_dec (refreshed (trace (refreshBindingsForDevice "A" world_AB))) 9%nat
     = 1%nat.
Proof.
  assert (Hnodup : List.NoDup (map b_addr (all_bindings (config world_AB)))).
  { repeat constructor. simpl. intuition. }
  split; [exact Hnodup|].
  destruct (refreshBindingsForDevice_once "A" world_AB) as (_ & _ & _ & Honce).
  apply (Honce Hnodup
           (mkBinding 9%nat [mkMessage 1%nat "A" None; mkMessage 2%nat "A" None])).
  simpl. auto.
Defined.


Lemma add_keeps_names_distinct_witness :
  (forall b : addr, In b (_list world_AB) -> is_Some (heap world_AB !! b))
  /\ List.NoDup (device_names world_AB)
  /\ List.NoDup (device_names (state (add (record "C" 1) world_AB))).
Proof.
  assert (Hwf : forall b : addr, In b (_list world_AB) -> is_Some (heap world_AB !! b)).
  { intros b [<-|[<-|[]]]; vm_compute; eauto. }
  assert (Hnodup : List.NoDup (device_names world_AB)).
  { vm_compute. repeat constructor; simpl; intuition discriminate. }
  split; [exact Hwf|]. split; [exact Hnodup|].
  apply (add_keeps_names_distinct (record "C" 1) world_AB Hwf Hnodup).
Defined.

Lemma add_existing_keeps_listings_witness :
  find (toString (at_key (record "A" 3) "name")) world_AB = Some 1%nat
  /\ device_names (state (add (record "A" 3) world_AB)) = device_names world_AB
  /\ capableDevices TYPE_OUTPUT (state (add (record "A" 3) world_AB))
     = capableDevices TYPE_OUTPUT world_AB.
Proof.
  assert (Hfind : find (toString (at_key (record "A" 3) "name")) world_AB = Some 1%nat)
    by (vm_compute; reflexivity).
  split; [exact Hfind|].
  apply (add_existing_keeps_listings (record "A" 3) world_AB 1%nat TYPE_OUTPUT Hfind).
Defined.

Lemma add_name_asks_for_nothing_witness :
  find "C" world_AB = None
  /\ existsb is_transport (trace (add_name "C" world_AB)) = false
  /\ raised (trace (add_name "C" world_AB)) = false.
Proof.
  assert (Hfind : find "C" world_AB = None) by (vm_compute; reflexivity).
  split; [exact Hfind|].
  destruct (add_name_asks_for_nothing "C" world_AB) as (d' & _ & _ & _ & _ & Hnew).
  apply (Hnew Hfind).
Defined.

Lemma capableDevices_lists_capable_witness :
  (exists a d, In a (_list world_AB) /\ heap world_AB !! a = Some d
               /\ isCapable TYPE_OUTPUT d = true /\ objectName d = "A")
  /\ In "A" (capableDevices TYPE_OUTPUT world_AB)
  /\ ~ In "B" (capableDevices TYPE_OUTPUT world_AB).
Proof.
  assert (Hcapable : exists a d, In a (_list world_AB) /\ heap world_AB !! a = Some d
                                 /\ isCapable TYPE_OUTPUT d = true /\ objectName d = "A").
  { exists 1%nat, device_A. repeat split. simpl. auto. }
  destruct (capableDevices_lists_capable TYPE_OUTPUT world_AB) as (_ & Hlisted).
  split; [exact Hcapable|]. split; [apply Hlisted; exact Hcapable|].
  intros Hin. apply Hlisted in Hin as (a & d & Ha & Hd & Hcap & Hname).
  destruct Ha as [<-|[<-|[]]]; vm_compute in Hd; injection Hd as <-; discriminate.
Defined.

Lemma add_new_leaves_no_null_witness :
  find (toString (at_key (record "Real" 1) "name")) world_dummy = None
  /\ config world_dummy
     = Some (mkConfig [[mkBinding 7%nat [mkMessage 1%nat "Real" None]]])
  /\ forallb has_device (all_messages (config (state (add (record "Real" 1) world_dummy))))
     = true.
Proof.
  assert (Hfind : find (toString (at_key (record "Real" 1) "name")) world_dummy = None)
    by (vm_compute; reflexivity).
  split; [exact Hfind|]. split; [reflexivity|].
  apply (add_new_leaves_no_null (record "Real" 1) world_dummy
           (mkConfig [[mkBinding 7%nat [mkMessage 1%nat "Real" None]]]) Hfind eq_refl).
Defined.

End MoreRuns.
